(** * Geniusglider service worker (sw.js): caching strategies, expiry,
      activation sweep and the offline form queue.

    The service worker is embedded as state-passing code over a [World]
    (Cache Storage, the IndexedDB object store, the log of network requests,
    the console) and a [Platform] of oracles for everything the browser
    decides (network outcomes, the clock, the URL parser, storage faults).
    An [async function] becomes a computation in the monad [M]; a rejected
    promise or a thrown exception is the outcome [Thrown]. *)

From Stdlib Require Import ZArith List Ascii String Bool Lia.
Import ListNotations.
Open Scope string_scope.
Open Scope Z_scope.
Open Scope list_scope.

(** ** Strings as the source uses them *)

(** [s.includes(pat)] *)
Fixpoint includes (s pat : string) : bool :=
  String.prefix pat s ||
  match s with
  | EmptyString => false
  | String _ s' => includes s' pat
  end.

(** [s.startsWith(pat)] *)
Definition startsWith (s pat : string) : bool := String.prefix pat s.

(** ** Data *)

Inductive Error : Type :=
| TypeError (msg : string)
| DOMException (name : string).

(** What [new Date(response.headers.get('date') || Date.now())] sees of the
    [date] header: it is missing or empty (falsy), it does not parse
    (Invalid Date), or it parses to a time value in milliseconds. *)
Inductive DateHeader : Type :=
| DateAbsent
| DateInvalid
| DateAt (ms : Z).

Record Response : Type := mkResponse
  { resp_url : string;
    status : Z;
    date_header : DateHeader;
    body : string }.

(** [new Response(body)] *)
Definition new_Response (b : string) : Response :=
  {| resp_url := ""; status := 200; date_header := DateAbsent; body := b |}.

(** [response.ok] *)
Definition ok (r : Response) : bool := (200 <=? status r) && (status r <=? 299).

Inductive Mode : Type := navigate | same_origin | no_cors | cors.

Definition is_navigate (m : Mode) : bool :=
  match m with navigate => true | _ => false end.

Record Request : Type := mkRequest
  { url : string;
    method : string;
    mode : Mode;
    payload : option string }.

(** A record of the [offlineForms] object store; [data] is the JSON text
    that [JSON.stringify(form.data)] produces. *)
Record Form : Type := mkForm
  { id : Z;
    data : string;
    timestamp : string }.

Inductive FetchOutcome : Type :=
| Resolved (r : Response)
| Rejected (e : Error).

(** A promise the code creates and does not await on the spot. *)
Inductive Pending : Type :=
| FetchThenCatch (k : nat) (cache : string) (request : Request)
| CachesMatch (key : string).

(** The JavaScript values the operator [||] is applied to in the strategies. *)
Inductive Val : Type :=
| undefined
| a_Response (r : Response)
| a_Promise (p : Pending).

(** Truthiness: [undefined] is falsy, every object (a promise too) is truthy. *)
Definition truthy (v : Val) : bool :=
  match v with undefined => false | _ => true end.

(** [a || b] *)
Definition js_or (a b : Val) : Val := if truthy a then a else b.

Definition Val_of (o : option Response) : Val :=
  match o with Some r => a_Response r | None => undefined end.

(** A JavaScript number that may be [NaN] ([None]); [a > b] is false on NaN. *)
Definition js_gt (a : option Z) (b : Z) : bool :=
  match a with Some x => x >? b | None => false end.

Inductive ConsoleEntry : Type :=
| Info (msg : string)
| Failure (msg : string) (e : Error).

(** ** Constants of sw.js *)

Definition CACHE_NAME : string := "geniusglider-v1.0.0".
Definition STATIC_CACHE_NAME : string := "geniusglider-static-v1.0.0".
Definition DYNAMIC_CACHE_NAME : string := "geniusglider-dynamic-v1.0.0".

Definition STATIC_FILES : list string :=
  [ "/"; "/index.html"; "/assets/css/critical.css"; "/assets/css/styles.css";
    "/assets/js/app.js"; "/assets/images/logo.svg";
    "/assets/images/logo-white.svg"; "/manifest.json" ].

Definition NETWORK_FIRST : list string := [ "/api/"; "/contact"; "?fresh=true" ].

Record MaxAge : Type := { static : Z; dynamic : Z; api : Z }.

Definition CACHE_MAX_AGE : MaxAge :=
  {| static := 30 * 24 * 60 * 60 * 1000;
     dynamic := 7 * 24 * 60 * 60 * 1000;
     api := 60 * 60 * 1000 |}.

(** ** The world and the platform *)

Definition Cache : Type := list (string * Response).
Definition CacheStorage : Type := list (string * Cache).

Record World : Type := mkWorld
  { caches : CacheStorage;        (* partitions in creation order *)
    offlineForms : list Form;     (* the object store, in key order *)
    fetch_log : list Request;     (* network requests started, oldest first *)
    inflight : list Pending;      (* promises created and not yet settled *)
    console : list ConsoleEntry;  (* oldest first *)
    clock_reads : nat;
    idb_ops : nat }.

Inductive IdbOp : Type :=
| OpOpen
| OpGetAll
| OpDelete (key : Z).

(** Everything the browser decides.  [network k r] is the outcome of the
    [k]-th network request when it is [r]; [clock k] is the [k]-th reading of
    the clock (milliseconds); [idb_fault k op] is the error, if any, of the
    [k]-th IndexedDB operation when it is [op]; [URL_pathname u] is
    [new URL(u).pathname], [None] when the constructor throws. *)
Record Platform : Type := mkPlatform
  { URL_pathname : string -> option string;
    network : nat -> Request -> FetchOutcome;
    clock : nat -> Z;
    idb_fault : nat -> IdbOp -> option Error }.

Definition set_network (P : Platform) (net : nat -> Request -> FetchOutcome)
  : Platform :=
  {| URL_pathname := URL_pathname P; network := net;
     clock := clock P; idb_fault := idb_fault P |}.

Definition set_caches (w : World) (cs : CacheStorage) : World :=
  {| caches := cs; offlineForms := offlineForms w; fetch_log := fetch_log w;
     inflight := inflight w; console := console w;
     clock_reads := clock_reads w; idb_ops := idb_ops w |}.

Definition set_offlineForms (w : World) (fs : list Form) : World :=
  {| caches := caches w; offlineForms := fs; fetch_log := fetch_log w;
     inflight := inflight w; console := console w;
     clock_reads := clock_reads w; idb_ops := idb_ops w |}.

Definition set_fetch_log (w : World) (l : list Request) : World :=
  {| caches := caches w; offlineForms := offlineForms w; fetch_log := l;
     inflight := inflight w; console := console w;
     clock_reads := clock_reads w; idb_ops := idb_ops w |}.

Definition set_inflight (w : World) (ps : list Pending) : World :=
  {| caches := caches w; offlineForms := offlineForms w;
     fetch_log := fetch_log w; inflight := ps; console := console w;
     clock_reads := clock_reads w; idb_ops := idb_ops w |}.

Definition set_console (w : World) (c : list ConsoleEntry) : World :=
  {| caches := caches w; offlineForms := offlineForms w;
     fetch_log := fetch_log w; inflight := inflight w; console := c;
     clock_reads := clock_reads w; idb_ops := idb_ops w |}.

Definition set_clock_reads (w : World) (n : nat) : World :=
  {| caches := caches w; offlineForms := offlineForms w;
     fetch_log := fetch_log w; inflight := inflight w; console := console w;
     clock_reads := n; idb_ops := idb_ops w |}.

Definition set_idb_ops (w : World) (n : nat) : World :=
  {| caches := caches w; offlineForms := offlineForms w;
     fetch_log := fetch_log w; inflight := inflight w; console := console w;
     clock_reads := clock_reads w; idb_ops := n |}.

(** ** The monad of async code: state and exceptions *)

Inductive Outcome (A : Type) : Type :=
| Returned (a : A)
| Thrown (e : Error).

Arguments Returned {A} a.
Arguments Thrown {A} e.

Definition M (A : Type) : Type := World -> Outcome A * World.

Definition ret {A : Type} (a : A) : M A := fun w => (Returned a, w).

Definition throw {A : Type} (e : Error) : M A := fun w => (Thrown e, w).

Definition bind {A B : Type} (m : M A) (f : A -> M B) : M B :=
  fun w =>
    match m w with
    | (Returned a, w') => f a w'
    | (Thrown e, w') => (Thrown e, w')
    end.

(** [try { m } catch (error) { h error }] *)
Definition try_catch {A : Type} (m : M A) (h : Error -> M A) : M A :=
  fun w =>
    match m w with
    | (Returned a, w') => (Returned a, w')
    | (Thrown e, w') => h e w'
    end.

Definition lift {A : Type} (o : Outcome A) : M A := fun w => (o, w).

Declare Scope sw_scope.
Delimit Scope sw_scope with sw.
Notation "x <- m ;; k" := (bind m (fun x => k))
  (at level 100, m at next level, right associativity) : sw_scope.
Notation "m ;; k" := (bind m (fun _ => k))
  (at level 100, right associativity) : sw_scope.
Open Scope sw_scope.

(** [for (const x of xs) { body x }], also the sequencing of the actions
    that [Promise.all(xs.map(body))] waits for. *)
Fixpoint for_of {A : Type} (xs : list A) (body : A -> M unit) : M unit :=
  match xs with
  | [] => ret tt
  | x :: rest => body x ;; for_of rest body
  end.

Definition console_log (msg : string) : M unit :=
  fun w => (Returned tt, set_console w (console w ++ [Info msg])).

Definition console_error (msg : string) (e : Error) : M unit :=
  fun w => (Returned tt, set_console w (console w ++ [Failure msg e])).

(** ** Cache Storage *)

Definition cache_lookup (key : string) (c : Cache) : option Response :=
  option_map snd (find (fun kv => String.eqb key (fst kv)) c).

(** [cache.put]: the entry of the same key is overwritten. *)
Fixpoint cache_insert (key : string) (r : Response) (c : Cache) : Cache :=
  match c with
  | [] => [(key, r)]
  | (k, v) :: rest =>
      if String.eqb key k then (k, r) :: rest
      else (k, v) :: cache_insert key r rest
  end.

(** [caches.match]: the first partition, in creation order, that has the key. *)
Fixpoint storage_lookup (key : string) (cs : CacheStorage) : option Response :=
  match cs with
  | [] => None
  | (_, c) :: rest =>
      match cache_lookup key c with
      | Some r => Some r
      | None => storage_lookup key rest
      end
  end.

Definition partition (name : string) (cs : CacheStorage) : option Cache :=
  option_map snd (find (fun p => String.eqb name (fst p)) cs).

Definition has_partition (name : string) (cs : CacheStorage) : bool :=
  existsb (fun p => String.eqb name (fst p)) cs.

Fixpoint storage_put (name key : string) (r : Response) (cs : CacheStorage)
  : CacheStorage :=
  match cs with
  | [] => []
  | (n, c) :: rest =>
      if String.eqb name n then (n, cache_insert key r c) :: rest
      else (n, c) :: storage_put name key r rest
  end.

(** [caches.match(request)]; a key is the URL as the code writes it (a
    relative URL such as ['/offline.html'] is not resolved). *)
Definition caches_match (key : string) : M (option Response) :=
  fun w => (Returned (storage_lookup key (caches w)), w).

(** [caches.open(name)]: creates the partition when it does not exist; the
    handle is the name. *)
Definition caches_open (name : string) : M string :=
  fun w =>
    if has_partition name (caches w) then (Returned name, w)
    else (Returned name, set_caches w (caches w ++ [(name, [])])).

Definition partition_lookup (name key : string) (cs : CacheStorage)
  : option Response :=
  match partition name cs with
  | Some c => cache_lookup key c
  | None => None
  end.

(** [cache.match(request)] on the handle of one partition *)
Definition cache_match (cache : string) (key : string) : M (option Response) :=
  fun w => (Returned (partition_lookup cache key (caches w)), w).

(** [cache.put(request, response.clone())] *)
Definition cache_put (cache : string) (request : Request) (r : Response)
  : M unit :=
  fun w => (Returned tt, set_caches w (storage_put cache (url request) r (caches w))).

(** [caches.keys()] *)
Definition caches_keys : M (list string) :=
  fun w => (Returned (map fst (caches w)), w).

(** [caches.delete(name)] *)
Definition caches_delete (name : string) : M unit :=
  fun w =>
    (Returned tt,
     set_caches w (filter (fun p => negb (String.eqb name (fst p))) (caches w))).

(** ** The service worker, over a platform *)

Section ServiceWorker.

Variable P : Platform.

(** [Date.now()] and [new Date()]: one reading of the clock. *)
Definition Date_now : M Z :=
  fun w => (Returned (clock P (clock_reads w)), set_clock_reads w (S (clock_reads w))).

(** [await fetch(request)]: the request is started, its outcome awaited. *)
Definition fetch (request : Request) : M Response :=
  fun w =>
    let w' := set_fetch_log w (fetch_log w ++ [request]) in
    match network P (List.length (fetch_log w)) request with
    | Resolved r => (Returned r, w')
    | Rejected e => (Thrown e, w')
    end.

(** [fetch(request).then(...).catch(...)] of staleWhileRevalidateStrategy:
    the request is started and the promise is created; nothing is awaited. *)
Definition fetch_then_catch (cache : string) (request : Request) : M Val :=
  fun w =>
    let k := List.length (fetch_log w) in
    (Returned (a_Promise (FetchThenCatch k cache request)),
     set_inflight (set_fetch_log w (fetch_log w ++ [request]))
                  (inflight w ++ [FetchThenCatch k cache request])).

Definition forget (k : nat) (ps : list Pending) : list Pending :=
  filter (fun p => match p with
                   | FetchThenCatch j _ _ => negb (Nat.eqb j k)
                   | CachesMatch _ => true
                   end) ps.

(** The value a pending promise settles to, with the effects of its handlers:
    for the fetch of staleWhileRevalidateStrategy the [then] handler stores a
    200 response in the opened partition and passes the response on, the
    [catch] handler logs the error and returns nothing ([undefined]). *)
Definition settle (p : Pending) : M (option Response) :=
  match p with
  | FetchThenCatch k cache request =>
      (fun w => (Returned tt, set_inflight w (forget k (inflight w)))) ;;
      match network P k request with
      | Resolved networkResponse =>
          (if status networkResponse =? 200
           then cache_put cache request networkResponse
           else ret tt) ;;
          ret (Some networkResponse)
      | Rejected error =>
          console_error "Network request failed:" error ;;
          ret None
      end
  | CachesMatch key => caches_match key
  end.

(** [return v] in an async function: a promise is awaited, any other value
    is the result. *)
Definition async_return (v : Val) : M (option Response) :=
  match v with
  | undefined => ret None
  | a_Response r => ret (Some r)
  | a_Promise p => settle p
  end.

(** *** Strategy classifier *)

Definition shouldUseNetworkFirst (request_url : string) : bool :=
  existsb (fun pattern => includes request_url pattern) NETWORK_FIRST.

(** [isStaticAsset(request)], on [request.url]; [new URL] may throw. *)
Definition isStaticAsset (request_url : string) : Outcome bool :=
  match URL_pathname P request_url with
  | None => Thrown (TypeError "Invalid URL")
  | Some pathname =>
      Returned (existsb (String.eqb pathname) STATIC_FILES
                || includes request_url "/assets/")
  end.

Definition getCacheName (request_url : string) : Outcome string :=
  match isStaticAsset request_url with
  | Thrown e => Thrown e
  | Returned true => Returned STATIC_CACHE_NAME
  | Returned false => Returned DYNAMIC_CACHE_NAME
  end.

(** *** Expiry policy *)

Definition isCacheExpired (response : Response) : M bool :=
  cachedDate <- match date_header response with
                | DateAt ms => ret (Some ms)
                | DateInvalid => ret None
                | DateAbsent => t <- Date_now ;; ret (Some t)
                end ;;
  now <- Date_now ;;
  let age := option_map (fun d => now - d) cachedDate in
  if includes (resp_url response) "/api/" then
    ret (js_gt age (api CACHE_MAX_AGE))
  else
    is_static <- lift (isStaticAsset (resp_url response)) ;;
    if is_static then ret (js_gt age (static CACHE_MAX_AGE))
    else ret (js_gt age (dynamic CACHE_MAX_AGE)).

(** [cachedResponse && !isCacheExpired(cachedResponse)] *)
Definition present_and_fresh (cachedResponse : option Response) : M bool :=
  match cachedResponse with
  | None => ret false
  | Some c => expired <- isCacheExpired c ;; ret (negb expired)
  end.

(** *** The three strategies *)

Definition cacheFirstStrategy (request : Request) : M (option Response) :=
  try_catch
    (cachedResponse <- caches_match (url request) ;;
     fresh <- present_and_fresh cachedResponse ;;
     if fresh then ret cachedResponse
     else
       networkResponse <- fetch request ;;
       (if status networkResponse =? 200 then
          name <- lift (getCacheName (url request)) ;;
          cache <- caches_open name ;;
          cache_put cache request networkResponse
        else ret tt) ;;
       ret (Some networkResponse))
    (fun error =>
       console_error "Cache first strategy failed:" error ;;
       cachedResponse <- caches_match (url request) ;;
       match cachedResponse with
       | Some c => ret (Some c)
       | None =>
           if is_navigate (mode request) then
             async_return (js_or (a_Promise (CachesMatch "/offline.html"))
                                 (a_Response (new_Response "Offline")))
           else throw error
       end).

Definition networkFirstStrategy (request : Request) : M (option Response) :=
  try_catch
    (networkResponse <- fetch request ;;
     (if status networkResponse =? 200 then
        cache <- caches_open DYNAMIC_CACHE_NAME ;;
        cache_put cache request networkResponse
      else ret tt) ;;
     ret (Some networkResponse))
    (fun error =>
       console_error "Network first strategy failed:" error ;;
       cachedResponse <- caches_match (url request) ;;
       match cachedResponse with
       | Some c => ret (Some c)
       | None => throw error
       end).

Definition staleWhileRevalidateStrategy (request : Request)
  : M (option Response) :=
  cache <- caches_open DYNAMIC_CACHE_NAME ;;
  cachedResponse <- cache_match cache (url request) ;;
  fetchPromise <- fetch_then_catch cache request ;;
  fresh <- present_and_fresh cachedResponse ;;
  if fresh then ret cachedResponse
  else
    async_return (js_or (js_or fetchPromise (Val_of cachedResponse))
                        (a_Response (new_Response "Offline"))).

(** *** The fetch listener *)

Inductive Strategy : Type := NetworkFirst | CacheFirst | StaleWhileRevalidate.

(** [None]: the listener returns without [respondWith] (pass-through). *)
Definition classify (request : Request) : Outcome (option Strategy) :=
  match URL_pathname P (url request) with
  | None => Thrown (TypeError "Invalid URL")
  | Some _ =>
      if negb (String.eqb (method request) "GET") then Returned None
      else if negb (startsWith (url request) "http") then Returned None
      else if shouldUseNetworkFirst (url request) then Returned (Some NetworkFirst)
      else match isStaticAsset (url request) with
           | Thrown e => Thrown e
           | Returned true => Returned (Some CacheFirst)
           | Returned false => Returned (Some StaleWhileRevalidate)
           end
  end.

Definition respond (s : Strategy) (request : Request) : M (option Response) :=
  match s with
  | NetworkFirst => networkFirstStrategy request
  | CacheFirst => cacheFirstStrategy request
  | StaleWhileRevalidate => staleWhileRevalidateStrategy request
  end.

(** *** Activation: the sweep of old partitions *)

Definition is_old_cache (cacheName : string) : bool :=
  negb (String.eqb cacheName STATIC_CACHE_NAME)
  && negb (String.eqb cacheName DYNAMIC_CACHE_NAME)
  && startsWith cacheName "geniusglider-".

(** The function mapped over [cacheNames]. *)
Definition delete_if_old (cacheName : string) : M unit :=
  if is_old_cache cacheName then
    console_log (String.append "Deleting old cache: " cacheName) ;;
    caches_delete cacheName
  else ret tt.

(** [self.clients.claim()] at the end touches nothing of the world. *)
Definition activate : M unit :=
  console_log "Service Worker activating..." ;;
  cacheNames <- caches_keys ;;
  for_of cacheNames delete_if_old ;;
  console_log "Service Worker activated".

(** *** The offline form queue *)

Definition idb_step (op : IdbOp) : M unit :=
  fun w =>
    let w' := set_idb_ops w (S (idb_ops w)) in
    match idb_fault P (idb_ops w) op with
    | Some e => (Thrown e, w')
    | None => (Returned tt, w')
    end.

(** [openDB()]: the object store exists once the database is open
    ([onupgradeneeded] creates it); the handle carries no information. *)
Definition openDB : M unit := idb_step OpOpen.

(** [store.getAll()]: the records in key order. *)
Definition getOfflineForms (db : unit) : M (list Form) :=
  idb_step OpGetAll ;;
  fun w => (Returned (offlineForms w), w).

Definition deleteOfflineForm (db : unit) (key : Z) : M unit :=
  idb_step (OpDelete key) ;;
  fun w =>
    (Returned tt,
     set_offlineForms w (filter (fun f => negb (id f =? key)) (offlineForms w))).

(** [fetch('/api/consultation', { method: 'POST', ..., body })] *)
Definition consultation_post (form : Form) : Request :=
  {| url := "/api/consultation"; method := "POST"; mode := cors;
     payload := Some (data form) |}.

Definition replay (db : unit) (form : Form) : M unit :=
  try_catch
    (response <- fetch (consultation_post form) ;;
     if ok response then
       deleteOfflineForm db (id form) ;;
       console_log "Offline form submitted successfully"
     else ret tt)
    (fun error => console_error "Failed to submit offline form:" error).

Definition handleOfflineFormSubmission : M unit :=
  try_catch
    (db <- openDB ;;
     offlineForms <- getOfflineForms db ;;
     for_of offlineForms (replay db))
    (fun error => console_error "Error handling offline forms:" error).

End ServiceWorker.

(** ** A concrete platform and concrete worlds *)

Fixpoint after_authority (s : string) : string :=
  match s with
  | EmptyString => EmptyString
  | String c s' =>
      if (Ascii.eqb c "/"%char || Ascii.eqb c "?"%char || Ascii.eqb c "#"%char)%bool then s
      else after_authority s'
  end.

Fixpoint until_query (s : string) : string :=
  match s with
  | EmptyString => EmptyString
  | String c s' =>
      if (Ascii.eqb c "?"%char || Ascii.eqb c "#"%char)%bool then EmptyString
      else String c (until_query s')
  end.

(** The pathname of an absolute URL [scheme://authority/path?query#fragment]
    whose path needs no normalisation; [None] when there is no [://]. *)
Definition simple_pathname (u : string) : option string :=
  match String.index 0%nat "://" u with
  | None => None
  | Some i =>
      let p := until_query (after_authority
                 (String.substring (i + 3)%nat (String.length u) u)) in
      Some (if String.eqb p "" then "/" else p)
  end.

Definition failed_to_fetch : Error := TypeError "Failed to fetch".

Definition offline_network (k : nat) (r : Request) : FetchOutcome :=
  Rejected failed_to_fetch.

(** The clock reads [1700000000000 + k] at its [k]-th reading. *)
Definition example_clock (k : nat) : Z := 1700000000000 + Z.of_nat k.

Definition no_fault (k : nat) (op : IdbOp) : option Error := None.

Definition example_platform (net : nat -> Request -> FetchOutcome)
  (faults : nat -> IdbOp -> option Error) : Platform :=
  {| URL_pathname := simple_pathname; network := net;
     clock := example_clock; idb_fault := faults |}.

Definition offline_platform : Platform := example_platform offline_network no_fault.

Definition empty_world : World :=
  {| caches := []; offlineForms := []; fetch_log := []; inflight := [];
     console := []; clock_reads := 0; idb_ops := 0 |}.

Definition GET (u : string) (m : Mode) : Request :=
  {| url := u; method := "GET"; mode := m; payload := None |}.

Definition home_url : string := "https://geniusglider.com/".
Definition styles_url : string := "https://geniusglider.com/assets/css/styles.css".
Definition about_url : string := "https://geniusglider.com/about".
Definition api_url : string := "https://geniusglider.com/api/leads".

(** A 200 response for [u] whose [date] header is [age] milliseconds before
    the first reading of [example_clock]. *)
Definition captured (u : string) (age : Z) (b : string) : Response :=
  {| resp_url := u; status := 200; date_header := DateAt (1700000000000 - age);
     body := b |}.

Definition world_with (cs : CacheStorage) : World :=
  {| caches := cs; offlineForms := []; fetch_log := []; inflight := [];
     console := []; clock_reads := 0; idb_ops := 0 |}.

Definition queue_world (fs : list Form) : World :=
  {| caches := []; offlineForms := fs; fetch_log := []; inflight := [];
     console := []; clock_reads := 0; idb_ops := 0 |}.

(** ** Expiry classes, as the branches of [isCacheExpired] tell them apart *)

Inductive ExpiryClass : Type := api_class | static_class | dynamic_class.

Definition max_age (c : ExpiryClass) : Z :=
  match c with
  | api_class => api CACHE_MAX_AGE
  | static_class => static CACHE_MAX_AGE
  | dynamic_class => dynamic CACHE_MAX_AGE
  end.

Definition expiry_class (P : Platform) (response : Response)
  : Outcome ExpiryClass :=
  if includes (resp_url response) "/api/" then Returned api_class
  else match isStaticAsset P (resp_url response) with
       | Thrown e => Thrown e
       | Returned true => Returned static_class
       | Returned false => Returned dynamic_class
       end.

(** An entry of the static class captured exactly 30 days before the first
    clock reading, and one captured a second later. *)
Definition entry_30_days_old : Response := captured styles_url (30 * 24 * 60 * 60 * 1000) "body{}".
Definition entry_30_days_less_1s : Response :=
  captured styles_url (30 * 24 * 60 * 60 * 1000 - 1000) "body{}".

(** The network answers every request with a 503 response. *)
Definition response_503 (u : string) : Response :=
  {| resp_url := u; status := 503; date_header := DateAbsent;
     body := "Service Unavailable" |}.

Definition unavailable_network (k : nat) (r : Request) : FetchOutcome :=
  Resolved (response_503 (url r)).

Definition unavailable_platform : Platform :=
  example_platform unavailable_network no_fault.

(** An API response captured one minute ago, and one captured a year ago. *)
Definition cached_leads : Response := captured api_url 60000 "[]".
Definition old_about : Response := captured about_url 31536000000 "<h1>About</h1>".
Definition fresh_about : Response := captured about_url 60000 "<h1>About</h1>".
Definition fresh_styles : Response := captured styles_url 60000 "body{}".


(** Two generations of partitions and a partition of another application. *)
Definition two_generations : CacheStorage :=
  [ ("geniusglider-static-v0.9.0", [(styles_url, old_about)]);
    ("geniusglider-dynamic-v0.9.0", []);
    (STATIC_CACHE_NAME, [(styles_url, fresh_styles)]);
    (DYNAMIC_CACHE_NAME, [(about_url, fresh_about)]);
    (CACHE_NAME, []);
    ("workbox-precache", [(about_url, old_about)]) ].


(** ** Replay outcomes of a drain *)

(** The [k]-th network request, the replay of [form], got a 2xx response. *)
Definition replay_ok (P : Platform) (k : nat) (form : Form) : bool :=
  match network P k (consultation_post form) with
  | Resolved r => ok r
  | Rejected _ => false
  end.

(** The forms, in order, whose replay got a 2xx response, and those whose
    replay did not, when the replay of the first one is the [k]-th request. *)
Fixpoint delivered (P : Platform) (k : nat) (forms : list Form) : list Form :=
  match forms with
  | [] => []
  | f :: rest =>
      if replay_ok P k f then f :: delivered P (S k) rest
      else delivered P (S k) rest
  end.

Fixpoint undelivered (P : Platform) (k : nat) (forms : list Form) : list Form :=
  match forms with
  | [] => []
  | f :: rest =>
      if replay_ok P k f then undelivered P (S k) rest
      else f :: undelivered P (S k) rest
  end.

(** No form of [ds] has the key of [f]. *)
Definition not_among (ds : list Form) (f : Form) : bool :=
  negb (existsb (fun g => id f =? id g) ds).

Definition form_A : Form := {| id := 1; data := "{name:A}"; timestamp := "2024-01-01T10:00:00Z" |}.
Definition form_B : Form := {| id := 2; data := "{name:B}"; timestamp := "2024-01-01T10:05:00Z" |}.
Definition form_C : Form := {| id := 3; data := "{name:C}"; timestamp := "2024-01-01T10:10:00Z" |}.

Definition response_201 : Response :=
  {| resp_url := "https://geniusglider.com/api/consultation"; status := 201;
     date_header := DateAbsent; body := "created" |}.

(** The endpoint accepts every submission but the one of [form_B], whose
    request is rejected. *)
Definition only_B_fails (k : nat) (r : Request) : FetchOutcome :=
  match payload r with
  | Some p => if String.eqb p (data form_B) then Rejected failed_to_fetch
              else Resolved response_201
  | None => Resolved response_201
  end.

Definition accepting_network (k : nat) (r : Request) : FetchOutcome :=
  Resolved response_201.

Definition quota_error : Error := DOMException "QuotaExceededError".
Definition unknown_error : Error := DOMException "UnknownError".

(** The database cannot be opened. *)
Definition cannot_open (k : nat) (op : IdbOp) : option Error :=
  match op with OpOpen => Some unknown_error | _ => None end.

(** The record of key 2 cannot be deleted. *)
Definition cannot_delete_2 (k : nat) (op : IdbOp) : option Error :=
  match op with
  | OpDelete key => if key =? 2 then Some quota_error else None
  | _ => None
  end.


(** ** Installation and the sync listener *)

Section Lifecycle.

Variable P : Platform.

(** What [cache.addAll] accepts of a response: an ok status other than 206. *)
Definition addable (r : Response) : bool := ok r && negb (status r =? 206).

(** [new Request(path)] in a worker served from [origin]: the path is
    resolved against the origin, the mode is the default one. *)
Definition precache_request (origin path : string) : Request :=
  {| url := String.append origin path; method := "GET"; mode := cors;
     payload := None |}.

(** The requests of [cache.addAll(paths)], the first of which is the [k]-th
    network request: the entries to store when every request resolved to a
    response [addAll] accepts, the error otherwise (of the first request in
    list order that failed). *)
Fixpoint fetch_all (origin : string) (k : nat) (paths : list string)
  : Outcome (list (string * Response)) :=
  match paths with
  | [] => Returned []
  | path :: rest =>
      match network P k (precache_request origin path) with
      | Rejected e => Thrown e
      | Resolved r =>
          if addable r then
            match fetch_all origin (S k) rest with
            | Returned entries => Returned ((String.append origin path, r) :: entries)
            | Thrown e => Thrown e
            end
          else Thrown (TypeError "Request failed")
      end
  end.

Definition put_all (cache : string) (entries : list (string * Response))
  (cs : CacheStorage) : CacheStorage :=
  fold_left (fun acc kr => storage_put cache (fst kr) (snd kr) acc) entries cs.

(** [cache.addAll(paths)]: all the requests are started; the entries are
    stored only when all of them succeeded. *)
Definition cache_addAll (cache origin : string) (paths : list string) : M unit :=
  fun w =>
    let w1 := set_fetch_log w (fetch_log w ++ map (precache_request origin) paths) in
    match fetch_all origin (List.length (fetch_log w)) paths with
    | Thrown e => (Thrown e, w1)
    | Returned entries =>
        (Returned tt, set_caches w1 (put_all cache entries (caches w1)))
    end.

(** The install listener, in a worker served from [origin];
    [self.skipWaiting()] after the last log touches nothing of the world. *)
Definition install (origin : string) : M unit :=
  console_log "Service Worker installing..." ;;
  try_catch
    (cache <- caches_open STATIC_CACHE_NAME ;;
     console_log "Caching static files..." ;;
     cache_addAll cache origin STATIC_FILES ;;
     console_log "Static files cached successfully")
    (fun error => console_error "Error caching static files:" error).

(** The sync listener, on [event.tag]. *)
Definition onsync (tag : string) : M unit :=
  if String.eqb tag "consultation-form" then handleOfflineFormSubmission P
  else ret tt.

End Lifecycle.

(** ** An invariant of Cache Storage: every stored response has status 200 *)

Definition only_200 (cs : CacheStorage) : bool :=
  forallb (fun p => forallb (fun kv => status (snd kv) =? 200) (snd p)) cs.

(** The computation [m] keeps the invariant. *)
Definition keeps {A : Type} (m : M A) : Prop :=
  forall w : World,
    only_200 (caches w) = true -> only_200 (caches (snd (m w))) = true.

(** ** More concrete data *)

Definition origin : string := "https://geniusglider.com".

(** The network answers every request with a 200 response of its URL. *)
Definition page_200 (u : string) : Response :=
  {| resp_url := u; status := 200; date_header := DateAt 1700000000000;
     body := "content" |}.

Definition serving_network (k : nat) (r : Request) : FetchOutcome :=
  Resolved (page_200 (url r)).

Definition serving_platform : Platform := example_platform serving_network no_fault.

(** A response without a [date] header. *)
Definition undated_styles : Response :=
  {| resp_url := styles_url; status := 200; date_header := DateAbsent;
     body := "body{}" |}.

(** A response whose [date] header does not parse. *)
Definition garbled_styles : Response :=
  {| resp_url := styles_url; status := 200; date_header := DateInvalid;
     body := "body{}" |}.

(** * Properties *)

Ltac run :=
  unfold try_catch, bind, ret, throw, lift, console_log, console_error,
         caches_match, cache_match, cache_put, caches_open, caches_keys,
         caches_delete, Date_now, fetch, fetch_then_catch, idb_step;
  cbn [fst snd].

Ltac fields :=
  cbn [fst snd caches offlineForms fetch_log inflight console clock_reads
       idb_ops set_caches set_offlineForms set_fetch_log set_inflight
       set_console set_clock_reads set_idb_ops].

(** ** Expiry policy *)

(** [isCacheExpired] reads the clock and nothing else: its outcome is a
    function of the number of readings made so far, and the only field it
    changes is that number. *)
Lemma isCacheExpired_clock_only (P : Platform) (response : Response) (w : World) :
  exists n, snd (isCacheExpired P response w) = set_clock_reads w n.
Proof.
  unfold isCacheExpired, present_and_fresh; run.
  destruct (date_header response); cbn;
    destruct (includes (resp_url response) "/api/"); cbn;
    try (destruct (isStaticAsset P (resp_url response)) as [[|]|]); cbn;
    eexists; reflexivity.
Qed.

Lemma isCacheExpired_outcome_ext (P : Platform) (response : Response) (w1 w2 : World) :
  clock_reads w1 = clock_reads w2 ->
  fst (isCacheExpired P response w1) = fst (isCacheExpired P response w2).
Proof.
  intros H. unfold isCacheExpired; run.
  destruct (date_header response); cbn; rewrite ?H;
    destruct (includes (resp_url response) "/api/"); cbn;
    try (destruct (isStaticAsset P (resp_url response)) as [[|]|]); cbn;
    reflexivity.
Qed.

Lemma isCacheExpired_network_irrelevant (P : Platform) net (response : Response) (w : World) :
  isCacheExpired (set_network P net) response w = isCacheExpired P response w.
Proof. reflexivity. Qed.

(** C3 (amended): for an entry with a parsed capture time [ts], of expiry
    class [cls], [isCacheExpired] returns true exactly when the age, the clock
    reading minus [ts], is strictly greater than the maximum age of the class
    (30 days, 7 days, 1 hour, in milliseconds).  At an age of exactly the
    maximum the entry is not expired, nor is it one second before that. *)
Theorem isCacheExpired_iff_age_exceeds :
  forall (P : Platform) (w : World) (response : Response) (ts : Z)
         (cls : ExpiryClass),
    date_header response = DateAt ts ->
    expiry_class P response = Returned cls ->
    exists b : bool,
      fst (isCacheExpired P response w) = Returned b /\
      (b = true <-> clock P (clock_reads w) - ts > max_age cls) /\
      (clock P (clock_reads w) - ts = max_age cls -> b = false) /\
      (clock P (clock_reads w) - ts = max_age cls - 1000 -> b = false) /\
      max_age static_class = 30 * 24 * 60 * 60 * 1000 /\
      max_age dynamic_class = 7 * 24 * 60 * 60 * 1000 /\
      max_age api_class = 60 * 60 * 1000.
Proof.
  intros P w response ts cls Hdate Hcls.
  exists (clock P (clock_reads w) - ts >? max_age cls).
  split.
  - unfold expiry_class in Hcls. unfold isCacheExpired; run. rewrite Hdate. cbn.
    destruct (includes (resp_url response) "/api/").
    + inversion Hcls; subst cls. reflexivity.
    + cbn. destruct (isStaticAsset P (resp_url response)) as [[|]|e];
        inversion Hcls; subst cls; reflexivity.
  - repeat split.
    + intros H. apply Z.gtb_lt in H. lia.
    + intros H. apply Z.gtb_lt. lia.
    + intros H. rewrite H, Z.gtb_ltb. apply Z.ltb_irrefl.
    + intros H. rewrite H, Z.gtb_ltb. apply Z.ltb_ge. lia.
Qed.

(** The static-class instance at the boundary: captured exactly 30 days ago. *)
Lemma isCacheExpired_iff_age_exceeds_witness :
  exists b : bool,
    fst (isCacheExpired offline_platform entry_30_days_old empty_world) = Returned b
    /\ b = false.
Proof.
  destruct (isCacheExpired_iff_age_exceeds offline_platform empty_world
              entry_30_days_old (1700000000000 - 30 * 24 * 60 * 60 * 1000)
              static_class eq_refl eq_refl)
    as (b & Hrun & _ & Hboundary & _).
  exists b. split; [exact Hrun | apply Hboundary; reflexivity].
Defined.

(** C3, as stated, fails: an entry of the static class captured exactly
    30 days before now is not reported expired. *)
Lemma isCacheExpired_exactly_30_days_not_expired :
  ~ fst (isCacheExpired offline_platform entry_30_days_old empty_world)
    = Returned true.
Proof. vm_compute. discriminate. Qed.

(** Without a [date] header the capture time is a first reading of the
    clock and the age is the time between two readings; with a header that
    does not parse the age is NaN and the entry is never expired. *)
Lemma isCacheExpired_without_date
  (P : Platform) (w : World) (response : Response) (cls : ExpiryClass) :
  date_header response = DateAbsent ->
  expiry_class P response = Returned cls ->
  fst (isCacheExpired P response w)
  = Returned (clock P (S (clock_reads w)) - clock P (clock_reads w) >? max_age cls).
Proof.
  intros Hdate Hcls. unfold expiry_class in Hcls.
  unfold isCacheExpired; run. rewrite Hdate. cbn.
  destruct (includes (resp_url response) "/api/").
  - inversion Hcls; subst cls. reflexivity.
  - cbn. destruct (isStaticAsset P (resp_url response)) as [[|]|e];
      inversion Hcls; subst cls; reflexivity.
Qed.

Lemma isCacheExpired_invalid_date
  (P : Platform) (w : World) (response : Response) (cls : ExpiryClass) :
  date_header response = DateInvalid ->
  expiry_class P response = Returned cls ->
  fst (isCacheExpired P response w) = Returned false.
Proof.
  intros Hdate Hcls. unfold expiry_class in Hcls.
  unfold isCacheExpired; run. rewrite Hdate. cbn.
  destruct (includes (resp_url response) "/api/"); [reflexivity|].
  cbn. destruct (isStaticAsset P (resp_url response)) as [[|]|e];
    inversion Hcls; reflexivity.
Qed.

Example static_entry_30_days_less_1s_is_fresh :
  fst (isCacheExpired offline_platform entry_30_days_less_1s empty_world)
  = Returned false.
Proof. vm_compute. reflexivity. Qed.

Example static_entry_30_days_plus_1ms_is_expired :
  fst (isCacheExpired offline_platform
         (captured styles_url (30 * 24 * 60 * 60 * 1000 + 1) "body{}")
         empty_world)
  = Returned true.
Proof. vm_compute. reflexivity. Qed.

(** ** Classifier, on concrete requests *)

Example classify_api :
  classify offline_platform (GET api_url cors) = Returned (Some NetworkFirst).
Proof. vm_compute. reflexivity. Qed.

Example classify_asset :
  classify offline_platform (GET styles_url no_cors) = Returned (Some CacheFirst).
Proof. vm_compute. reflexivity. Qed.

Example classify_home :
  classify offline_platform (GET home_url navigate) = Returned (Some CacheFirst).
Proof. vm_compute. reflexivity. Qed.

Example classify_page :
  classify offline_platform (GET about_url navigate)
  = Returned (Some StaleWhileRevalidate).
Proof. vm_compute. reflexivity. Qed.

Example classify_post_passes_through :
  classify offline_platform
    {| url := api_url; method := "POST"; mode := cors; payload := Some "{}" |}
  = Returned None.
Proof. vm_compute. reflexivity. Qed.

(** ** Cache Storage facts *)

Lemma partition_has (name : string) (cs : CacheStorage) (c : Cache) :
  partition name cs = Some c -> has_partition name cs = true.
Proof.
  unfold partition, has_partition.
  induction cs as [|[n c'] cs IH]; cbn; [discriminate|].
  destruct (String.eqb name n); cbn; auto.
Qed.

Lemma partition_lookup_has (name key : string) (cs : CacheStorage) (r : Response) :
  partition_lookup name key cs = Some r -> has_partition name cs = true.
Proof.
  unfold partition_lookup. destruct (partition name cs) eqn:E; [|discriminate].
  intros _. eapply partition_has; eassumption.
Qed.

Lemma partition_lookup_created (name key : string) (cs : CacheStorage) :
  has_partition name cs = false ->
  partition_lookup name key (cs ++ [(name, [])]) = None.
Proof.
  unfold partition_lookup, partition, has_partition.
  induction cs as [|[n c] cs IH]; cbn.
  - rewrite String.eqb_refl. reflexivity.
  - destruct (String.eqb name n); cbn; [discriminate | exact IH].
Qed.

(** ** CacheFirst *)

(** C5: when [caches.match] finds an entry and [isCacheExpired] reports it
    fresh, [cacheFirstStrategy] returns that entry, whatever the network would
    answer, and no network request is started. *)
Theorem cacheFirst_fresh_hit_never_fetches :
  forall (P : Platform) (request : Request) (w : World) (c : Response),
    storage_lookup (url request) (caches w) = Some c ->
    fst (isCacheExpired P c w) = Returned false ->
    forall net : nat -> Request -> FetchOutcome,
    exists w' : World,
      cacheFirstStrategy (set_network P net) request w = (Returned (Some c), w')
      /\ fetch_log w' = fetch_log w
      /\ inflight w' = inflight w
      /\ caches w' = caches w.
Proof.
  intros P request w c Hhit Hfresh net.
  unfold cacheFirstStrategy, present_and_fresh; run.
  rewrite Hhit, isCacheExpired_network_irrelevant.
  destruct (isCacheExpired_clock_only P c w) as [n Hn].
  destruct (isCacheExpired P c w) as [o w1]. cbn in Hfresh, Hn. subst o w1.
  cbn. eexists. repeat split.
Qed.

Lemma cacheFirst_fresh_hit_never_fetches_witness :
  exists w' : World,
    cacheFirstStrategy (set_network offline_platform unavailable_network)
      (GET styles_url no_cors)
      (world_with [(STATIC_CACHE_NAME, [(styles_url, fresh_styles)])])
    = (Returned (Some fresh_styles), w')
    /\ fetch_log w' = [].
Proof.
  destruct (cacheFirst_fresh_hit_never_fetches offline_platform
              (GET styles_url no_cors)
              (world_with [(STATIC_CACHE_NAME, [(styles_url, fresh_styles)])])
              fresh_styles eq_refl eq_refl unavailable_network)
    as (w' & Hrun & Hlog & _).
  exists w'. split; [exact Hrun | exact Hlog].
Defined.

(** C2 (what the code does): a navigation whose fetch is rejected, with no
    cached entry for the request and no cached [/offline.html], resolves to
    [undefined]: the promise of [caches.match] is truthy, so the synthetic
    response on the right of [||] is never taken. *)
Theorem cacheFirst_failed_navigation_yields_undefined :
  forall (P : Platform) (request : Request) (w : World) (e : Error),
    network P (List.length (fetch_log w)) request = Rejected e ->
    storage_lookup (url request) (caches w) = None ->
    mode request = navigate ->
    storage_lookup "/offline.html" (caches w) = None ->
    exists w' : World,
      cacheFirstStrategy P request w = (Returned None, w').
Proof.
  intros P request w e Hnet Hmiss Hnav Hoffline.
  unfold cacheFirstStrategy, present_and_fresh; run.
  rewrite Hmiss, Hnet. cbn. rewrite Hmiss, Hnav. cbn.
  unfold caches_match. cbn. rewrite Hoffline. eexists; reflexivity.
Qed.

Lemma cacheFirst_failed_navigation_yields_undefined_witness :
  exists w' : World,
    cacheFirstStrategy offline_platform (GET home_url navigate) empty_world
    = (Returned None, w').
Proof.
  apply (cacheFirst_failed_navigation_yields_undefined offline_platform
           (GET home_url navigate) empty_world failed_to_fetch);
    reflexivity.
Defined.

(** The branches of the failure path of [cacheFirstStrategy] that behave as
    described: an existing entry is returned even when expired, a cached
    [/offline.html] is served to a navigation, and a request that is not a
    navigation sees the failure. *)
Lemma cacheFirst_failed_fetch_falls_back_to_entry
  (P : Platform) (request : Request) (w : World) (e : Error) (c : Response) :
  network P (List.length (fetch_log w)) request = Rejected e ->
  storage_lookup (url request) (caches w) = Some c ->
  fst (isCacheExpired P c w) = Returned true ->
  exists w', cacheFirstStrategy P request w = (Returned (Some c), w').
Proof.
  intros Hnet Hhit Hexp.
  unfold cacheFirstStrategy, present_and_fresh; run. rewrite Hhit.
  destruct (isCacheExpired_clock_only P c w) as [n Hn].
  destruct (isCacheExpired P c w) as [o w1]. cbn in Hexp, Hn. subst o w1.
  cbn. rewrite Hnet. cbn. rewrite Hhit. eexists; reflexivity.
Qed.

Lemma cacheFirst_failed_navigation_serves_offline_page
  (P : Platform) (request : Request) (w : World) (e : Error) (page : Response) :
  network P (List.length (fetch_log w)) request = Rejected e ->
  storage_lookup (url request) (caches w) = None ->
  mode request = navigate ->
  storage_lookup "/offline.html" (caches w) = Some page ->
  exists w', cacheFirstStrategy P request w = (Returned (Some page), w').
Proof.
  intros Hnet Hmiss Hnav Hpage.
  unfold cacheFirstStrategy, present_and_fresh; run.
  rewrite Hmiss, Hnet. cbn. rewrite Hmiss, Hnav. cbn.
  unfold caches_match. cbn. rewrite Hpage. eexists; reflexivity.
Qed.

Lemma cacheFirst_failed_subresource_propagates
  (P : Platform) (request : Request) (w : World) (e : Error) :
  network P (List.length (fetch_log w)) request = Rejected e ->
  storage_lookup (url request) (caches w) = None ->
  is_navigate (mode request) = false ->
  exists w', cacheFirstStrategy P request w = (Thrown e, w').
Proof.
  intros Hnet Hmiss Hnav.
  unfold cacheFirstStrategy, present_and_fresh; run.
  rewrite Hmiss, Hnet. cbn. rewrite Hmiss, Hnav. eexists; reflexivity.
Qed.

(** ** StaleWhileRevalidate *)

(** C6: when the dynamic partition holds an entry for the request and
    [isCacheExpired] reports it fresh, [staleWhileRevalidateStrategy] returns
    exactly that entry, whatever the network would answer; at the return the
    network request has been started and its promise is still pending, the
    partitions are as they were and nothing was logged. *)
Theorem staleWhileRevalidate_fresh_hit_does_not_wait :
  forall (P : Platform) (request : Request) (w : World) (c : Response),
    partition_lookup DYNAMIC_CACHE_NAME (url request) (caches w) = Some c ->
    fst (isCacheExpired P c w) = Returned false ->
    forall net : nat -> Request -> FetchOutcome,
    exists w' : World,
      staleWhileRevalidateStrategy (set_network P net) request w
      = (Returned (Some c), w')
      /\ fetch_log w' = fetch_log w ++ [request]
      /\ inflight w'
         = inflight w
           ++ [FetchThenCatch (List.length (fetch_log w)) DYNAMIC_CACHE_NAME request]
      /\ caches w' = caches w
      /\ console w' = console w.
Proof.
  intros P request w c Hhit Hfresh net.
  unfold staleWhileRevalidateStrategy, present_and_fresh; run.
  rewrite (partition_lookup_has _ _ _ _ Hhit). cbn. rewrite Hhit. cbn.
  rewrite isCacheExpired_network_irrelevant.
  match goal with
  | |- context [isCacheExpired P c ?w1] =>
      assert (Hfresh1 : fst (isCacheExpired P c w1) = Returned false)
        by (rewrite <- Hfresh; apply isCacheExpired_outcome_ext; reflexivity);
      destruct (isCacheExpired_clock_only P c w1) as [n Hn];
      destruct (isCacheExpired P c w1) as [o w2]
  end.
  cbn in Hfresh1, Hn. subst o w2. cbn. eexists. repeat split.
Qed.

Lemma staleWhileRevalidate_fresh_hit_does_not_wait_witness :
  exists w' : World,
    staleWhileRevalidateStrategy (set_network offline_platform unavailable_network)
      (GET about_url navigate)
      (world_with [(DYNAMIC_CACHE_NAME, [(about_url, fresh_about)])])
    = (Returned (Some fresh_about), w')
    /\ inflight w'
       = [FetchThenCatch 0 DYNAMIC_CACHE_NAME (GET about_url navigate)].
Proof.
  destruct (staleWhileRevalidate_fresh_hit_does_not_wait offline_platform
              (GET about_url navigate)
              (world_with [(DYNAMIC_CACHE_NAME, [(about_url, fresh_about)])])
              fresh_about eq_refl eq_refl unavailable_network)
    as (w' & Hrun & _ & Hpending & _).
  exists w'. split; [exact Hrun | exact Hpending].
Defined.

(** Without a fresh entry the strategy returns the promise of the fetch, which
    is truthy: the result is the network response when the fetch resolves
    (whatever its status) and [undefined] when it is rejected. *)
Lemma staleWhileRevalidate_not_fresh
  (P : Platform) (request : Request) (w : World) :
  (forall w1, clock_reads w1 = clock_reads w ->
     fst (present_and_fresh P
            (partition_lookup DYNAMIC_CACHE_NAME (url request) (caches w)) w1)
     = Returned false) ->
  exists w',
    staleWhileRevalidateStrategy P request w
    = (Returned match network P (List.length (fetch_log w)) request with
                | Resolved r => Some r
                | Rejected _ => None
                end, w').
Proof.
  intros Hstale.
  unfold staleWhileRevalidateStrategy; run.
  destruct (has_partition DYNAMIC_CACHE_NAME (caches w)) eqn:Hhas; cbn.
  - match goal with
    | |- context [present_and_fresh P ?o ?w1] =>
        specialize (Hstale w1 eq_refl);
        destruct (present_and_fresh P o w1) as [f w2]
    end.
    cbn in Hstale. subst f. cbn. unfold settle; run.
    destruct (network P (List.length (fetch_log w)) request) as [r|e]; cbn.
    + destruct (status r =? 200); eexists; reflexivity.
    + eexists; reflexivity.
  - rewrite partition_lookup_created by exact Hhas. cbn.
    unfold settle; run.
    destruct (network P (List.length (fetch_log w)) request) as [r|e]; cbn.
    + destruct (status r =? 200); eexists; reflexivity.
    + eexists; reflexivity.
Qed.

(** C1 (what the code does): when the fetch is rejected and the dynamic
    partition has no entry for the request, [staleWhileRevalidateStrategy]
    resolves to [undefined], not to a synthetic response. *)
Theorem staleWhileRevalidate_failed_fetch_yields_undefined :
  forall (P : Platform) (request : Request) (w : World) (e : Error),
    network P (List.length (fetch_log w)) request = Rejected e ->
    partition_lookup DYNAMIC_CACHE_NAME (url request) (caches w) = None ->
    exists w' : World,
      staleWhileRevalidateStrategy P request w = (Returned None, w').
Proof.
  intros P request w e Hnet Hmiss.
  destruct (staleWhileRevalidate_not_fresh P request w) as [w' Hrun].
  - intros w1 _. rewrite Hmiss. reflexivity.
  - rewrite Hnet in Hrun. exists w'. exact Hrun.
Qed.

Lemma staleWhileRevalidate_failed_fetch_yields_undefined_witness :
  exists w' : World,
    staleWhileRevalidateStrategy offline_platform (GET about_url navigate)
      empty_world
    = (Returned None, w').
Proof.
  apply (staleWhileRevalidate_failed_fetch_yields_undefined offline_platform
           (GET about_url navigate) empty_world failed_to_fetch);
    reflexivity.
Defined.

(** With an expired entry and a rejected fetch the result is [undefined] as
    well: neither the expired entry nor the synthetic response is reached. *)
Lemma staleWhileRevalidate_expired_entry_failed_fetch :
  fst (staleWhileRevalidateStrategy offline_platform (GET about_url navigate)
         (world_with [(DYNAMIC_CACHE_NAME, [(about_url, old_about)])]))
  = Returned None.
Proof. vm_compute. reflexivity. Qed.

(** ** NetworkFirst *)

(** C4 (amended): the outcome of [networkFirstStrategy] is decided by the
    outcome of its fetch.  A fetch that resolves is answered with its response
    whatever the status (only a 200 response is stored); a fetch that is
    rejected is answered with the entry [caches.match] finds, expired or not,
    and the rejection is thrown on only when there is no entry. *)
Theorem networkFirst_outcome :
  forall (P : Platform) (request : Request) (w : World),
  exists w' : World,
    networkFirstStrategy P request w
    = (match network P (List.length (fetch_log w)) request with
       | Resolved r => Returned (Some r)
       | Rejected e =>
           match storage_lookup (url request) (caches w) with
           | Some c => Returned (Some c)
           | None => Thrown e
           end
       end, w')
    /\ fetch_log w' = fetch_log w ++ [request]
    /\ clock_reads w' = clock_reads w
    /\ match network P (List.length (fetch_log w)) request with
       | Resolved r => status r = 200 \/ caches w' = caches w
       | Rejected _ => caches w' = caches w
       end.
Proof.
  intros P request w. unfold networkFirstStrategy; run.
  destruct (network P (List.length (fetch_log w)) request) as [r|e].
  - destruct (status r =? 200) eqn:Hs; fields.
    + apply Z.eqb_eq in Hs.
      destruct (has_partition DYNAMIC_CACHE_NAME (caches w));
        eexists; (split; [reflexivity|]); fields; auto.
    + eexists; (split; [reflexivity|]); fields; auto.
  - fields.
    destruct (storage_lookup (url request) (caches w));
      eexists; (split; [reflexivity|]); fields; auto.
Qed.

(** C4, as stated, fails: with a cached entry and a network that answers 503,
    the caller gets the 503 response and not the cached entry. *)
Lemma networkFirst_error_status_is_not_a_fallback :
  fst (networkFirstStrategy unavailable_platform (GET api_url cors)
         (world_with [(DYNAMIC_CACHE_NAME, [(api_url, cached_leads)])]))
  = Returned (Some (response_503 api_url))
  /\ storage_lookup api_url [(DYNAMIC_CACHE_NAME, [(api_url, cached_leads)])]
     = Some cached_leads
  /\ response_503 api_url <> cached_leads.
Proof. repeat split; try (vm_compute; reflexivity). discriminate. Qed.

(** ** Activation sweep *)

Lemma filter_twice {A : Type} (f g : A -> bool) (l : list A) :
  filter f (filter g l) = filter (fun x => g x && f x) l.
Proof.
  induction l as [|x l IH]; cbn; [reflexivity|].
  destruct (g x); cbn; [destruct (f x)|]; rewrite IH; reflexivity.
Qed.

Lemma filter_all {A : Type} (l : list A) : filter (fun _ => true) l = l.
Proof. induction l as [|x l IH]; cbn; [|rewrite IH]; reflexivity. Qed.

(** Deleting, one name after the other, the old ones among [names] leaves
    the partitions none of these deletions names. *)
Lemma sweep_spec (names : list string) :
  forall w : World,
  exists w' : World,
    for_of names delete_if_old w = (Returned tt, w')
    /\ caches w'
       = filter (fun p => negb (existsb (fun n => is_old_cache n
                                                 && String.eqb n (fst p)) names))
                (caches w)
    /\ offlineForms w' = offlineForms w
    /\ fetch_log w' = fetch_log w.
Proof.
  induction names as [|name names IH]; intros w.
  - exists w. cbn. rewrite filter_all. repeat split.
  - cbn [for_of]. unfold delete_if_old at 1; run.
    destruct (is_old_cache name) eqn:Hold; fields.
    + match goal with |- context [for_of names delete_if_old ?w1] =>
        destruct (IH w1) as (w' & Hrun & Hc & Hf & Hl) end.
      rewrite Hrun. exists w'. fields. split; [reflexivity|].
      split; [|split; assumption].
      rewrite Hc. fields. rewrite filter_twice. apply filter_ext.
      intros p. cbn. rewrite Hold. cbn. rewrite negb_orb. reflexivity.
    + destruct (IH w) as (w' & Hrun & Hc & Hf & Hl).
      rewrite Hrun. exists w'. split; [reflexivity|].
      split; [|split; assumption].
      rewrite Hc. apply filter_ext. intros p. cbn. rewrite Hold. reflexivity.
Qed.

Lemma is_old_cache_false (name : string) :
  is_old_cache name = false <->
  startsWith name "geniusglider-" = false
  \/ name = STATIC_CACHE_NAME \/ name = DYNAMIC_CACHE_NAME.
Proof.
  unfold is_old_cache. split.
  - intros H. destruct (String.eqb_spec name STATIC_CACHE_NAME); auto.
    destruct (String.eqb_spec name DYNAMIC_CACHE_NAME); auto.
  - intros [H | [H | H]].
    + rewrite H. apply andb_false_r.
    + subst name. reflexivity.
    + subst name. reflexivity.
Qed.

(** C7: activation returns, and the partitions it leaves are those of before
    that are not old, each with its contents: a name survives exactly when it
    existed and either does not start with [geniusglider-] or is the current
    static or dynamic name. *)
Theorem activate_sweeps_old_generations :
  forall w : World,
  exists w' : World,
    activate w = (Returned tt, w')
    /\ caches w' = filter (fun p => negb (is_old_cache (fst p))) (caches w)
    /\ forall name : string,
         In name (map fst (caches w')) <->
         In name (map fst (caches w))
         /\ (startsWith name "geniusglider-" = false
             \/ name = STATIC_CACHE_NAME \/ name = DYNAMIC_CACHE_NAME).
Proof.
  intros w. unfold activate; run. fields.
  match goal with |- context [for_of ?names delete_if_old ?w1] =>
    destruct (sweep_spec names w1) as (w' & Hrun & Hc & _) end.
  rewrite Hrun. eexists. split; [reflexivity|]. fields.
  assert (Hfilter : caches w' = filter (fun p => negb (is_old_cache (fst p))) (caches w)).
  { rewrite Hc. fields. apply filter_ext_in. intros p Hp. f_equal.
    destruct (is_old_cache (fst p)) eqn:Hold.
    - apply existsb_exists. exists (fst p). split.
      + apply in_map. exact Hp.
      + rewrite Hold, String.eqb_refl. reflexivity.
    - apply not_true_is_false. intros H. apply existsb_exists in H.
      destruct H as (n & _ & Hn). apply andb_prop in Hn. destruct Hn as [Hn1 Hn2].
      apply String.eqb_eq in Hn2. subst n. congruence. }
  split; [exact Hfilter|].
  intros name. rewrite Hfilter, <- is_old_cache_false. split.
  - intros H. apply in_map_iff in H. destruct H as (p & Hname & Hp).
    apply filter_In in Hp. destruct Hp as [Hp Hkeep]. subst name. split.
    + apply in_map. exact Hp.
    + apply negb_true_iff. exact Hkeep.
  - intros [H Hkeep]. apply in_map_iff in H. destruct H as (p & Hname & Hp).
    apply in_map_iff. exists p. split; [exact Hname|].
    apply filter_In. split; [exact Hp|]. subst name.
    apply negb_true_iff. exact Hkeep.
Qed.

(** Two generations: the current static and dynamic partitions and the
    partition of another application remain, with their contents. *)
Example activate_two_generations :
  caches (snd (activate (world_with two_generations)))
  = [ (STATIC_CACHE_NAME, [(styles_url, fresh_styles)]);
      (DYNAMIC_CACHE_NAME, [(about_url, fresh_about)]);
      ("workbox-precache", [(about_url, old_about)]) ].
Proof. vm_compute. reflexivity. Qed.

(** ** The offline form queue *)

Lemma for_of_app {A : Type} (xs ys : list A) (body : A -> M unit) (w : World) :
  for_of (xs ++ ys) body w
  = match for_of xs body w with
    | (Returned _, w') => for_of ys body w'
    | (Thrown e, w') => (Thrown e, w')
    end.
Proof.
  revert w. induction xs as [|x xs IH]; intros w; cbn [for_of app].
  - reflexivity.
  - unfold bind. destruct (body x w) as [[[]|e] w1]; [apply IH | reflexivity].
Qed.

(** One iteration of the loop never throws and starts exactly one request;
    the record is deleted when the replay got a 2xx response and the store
    did not fail. *)
Lemma replay_step (P : Platform) (f : Form) (w : World) :
  exists w' : World,
    replay P tt f w = (Returned tt, w')
    /\ fetch_log w' = fetch_log w ++ [consultation_post f]
    /\ (exists c, console w' = console w ++ c)
    /\ offlineForms w'
       = (if replay_ok P (List.length (fetch_log w)) f then
            match idb_fault P (idb_ops w) (OpDelete (id f)) with
            | None => filter (fun g => negb (id g =? id f)) (offlineForms w)
            | Some _ => offlineForms w
            end
          else offlineForms w)
    /\ (replay_ok P (List.length (fetch_log w)) f = true ->
        forall e, idb_fault P (idb_ops w) (OpDelete (id f)) = Some e ->
        In (Failure "Failed to submit offline form:" e) (console w')).
Proof.
  unfold replay, replay_ok, deleteOfflineForm; run.
  destruct (network P (List.length (fetch_log w)) (consultation_post f)) as [r|e];
    fields.
  - destruct (ok r) eqn:Hok; fields.
    + destruct (idb_fault P (idb_ops w) (OpDelete (id f))) as [e|] eqn:Hfault;
        fields; eexists; (split; [reflexivity|]); fields.
      * split; [reflexivity|]. split; [eexists; reflexivity|].
        split; [reflexivity|]. intros _ e' He'. inversion He'; subst e'.
        apply in_or_app. right. left. reflexivity.
      * split; [reflexivity|]. split; [eexists; reflexivity|].
        split; [reflexivity|]. intros _ e' He'. discriminate.
    + eexists. split; [reflexivity|]. fields.
      split; [reflexivity|]. split; [exists []; symmetry; apply app_nil_r|].
      split; [reflexivity|]. intros H; discriminate.
  - eexists. split; [reflexivity|]. fields.
    split; [reflexivity|]. split; [eexists; reflexivity|].
    split; [reflexivity|]. intros H; discriminate.
Qed.

(** The loop never throws, whatever the network and the store do: every form
    of the snapshot is replayed, in order; a form whose deletion always fails
    stays in the store. *)
Lemma replay_loop_total (P : Platform) (forms : list Form) :
  forall w : World,
  exists w' : World,
    for_of forms (replay P tt) w = (Returned tt, w')
    /\ fetch_log w' = fetch_log w ++ map consultation_post forms
    /\ (exists c, console w' = console w ++ c)
    /\ (forall f, In f (offlineForms w) ->
          (forall k, idb_fault P k (OpDelete (id f)) <> None) ->
          In f (offlineForms w')).
Proof.
  induction forms as [|f forms IH]; intros w.
  - exists w. cbn. rewrite app_nil_r. repeat split; auto.
    exists []. symmetry. apply app_nil_r.
  - cbn [for_of map]. unfold bind.
    destruct (replay_step P f w) as (w1 & Hrun & Hlog & [c Hc] & Hstore & _).
    rewrite Hrun. destruct (IH w1) as (w' & Hrun' & Hlog' & [c' Hc'] & Hkeep).
    exists w'. split; [exact Hrun'|]. split; [|split].
    + rewrite Hlog', Hlog, <- app_assoc. reflexivity.
    + exists (c ++ c'). rewrite Hc', Hc, <- app_assoc. reflexivity.
    + intros g Hg Hfault. apply Hkeep; [|exact Hfault].
      rewrite Hstore.
      destruct (replay_ok P (List.length (fetch_log w)) f); [|exact Hg].
      destruct (idb_fault P (idb_ops w) (OpDelete (id f))) eqn:Hdel; [exact Hg|].
      apply filter_In. split; [exact Hg|].
      apply negb_true_iff. apply Z.eqb_neq. intros Heq.
      apply (Hfault (idb_ops w)). rewrite Heq. exact Hdel.
Qed.

(** With a store that never fails, the loop deletes the delivered forms. *)
Lemma replay_loop_no_fault (P : Platform) (forms : list Form) :
  (forall k op, idb_fault P k op = None) ->
  forall w : World,
  exists w' : World,
    for_of forms (replay P tt) w = (Returned tt, w')
    /\ fetch_log w' = fetch_log w ++ map consultation_post forms
    /\ offlineForms w'
       = filter (not_among (delivered P (List.length (fetch_log w)) forms))
                (offlineForms w).
Proof.
  intros Hnofault. induction forms as [|f forms IH]; intros w.
  - exists w. cbn. rewrite app_nil_r.
    repeat split. unfold not_among. cbn. symmetry. apply filter_all.
  - cbn [for_of map delivered]. unfold bind.
    destruct (replay_step P f w) as (w1 & Hrun & Hlog & _ & Hstore & _).
    rewrite Hrun. destruct (IH w1) as (w' & Hrun' & Hlog' & Hst').
    exists w'. split; [exact Hrun'|]. split.
    + rewrite Hlog', Hlog, <- app_assoc. reflexivity.
    + rewrite Hst', Hstore, Hlog, length_app, Hnofault. cbn [List.length].
      replace (List.length (fetch_log w) + 1)%nat
        with (S (List.length (fetch_log w))) by lia.
      destruct (replay_ok P (List.length (fetch_log w)) f).
      * rewrite filter_twice. apply filter_ext. intros g.
        unfold not_among. cbn. rewrite negb_orb. reflexivity.
      * reflexivity.
Qed.

Lemma delivered_incl (P : Platform) (forms : list Form) :
  forall k f, In f (delivered P k forms) -> In f forms.
Proof.
  induction forms as [|g forms IH]; intros k f; cbn; [tauto|].
  destruct (replay_ok P k g); cbn; intros H.
  - destruct H as [H|H]; [left; exact H | right; eapply IH; exact H].
  - right. eapply IH. exact H.
Qed.

Lemma undelivered_incl (P : Platform) (forms : list Form) :
  forall k f, In f (undelivered P k forms) -> In f forms.
Proof.
  induction forms as [|g forms IH]; intros k f; cbn; [tauto|].
  destruct (replay_ok P k g); cbn; intros H.
  - right. eapply IH. exact H.
  - destruct H as [H|H]; [left; exact H | right; eapply IH; exact H].
Qed.

Lemma not_among_fresh_key (ds : list Form) (f : Form) :
  ~ In (id f) (map id ds) -> not_among ds f = true.
Proof.
  intros Hfresh. unfold not_among. apply negb_true_iff.
  apply not_true_is_false. intros H. apply existsb_exists in H.
  destruct H as (g & Hg & Heq). apply Z.eqb_eq in Heq.
  apply Hfresh. rewrite Heq. apply in_map. exact Hg.
Qed.

(** Keys are unique in the store, so removing the delivered forms by key
    leaves the undelivered ones. *)
Lemma filter_delivered (P : Platform) (forms : list Form) :
  NoDup (map id forms) ->
  forall k,
    filter (not_among (delivered P k forms)) forms = undelivered P k forms.
Proof.
  induction forms as [|f forms IH]; intros Hnodup k; [reflexivity|].
  cbn [map] in Hnodup. inversion Hnodup as [|x l Hfresh Hrest]; subst x l.
  cbn [delivered undelivered filter].
  assert (Hkeep : not_among (delivered P (S k) forms) f = true).
  { apply not_among_fresh_key. intros H. apply Hfresh.
    apply in_map_iff in H. destruct H as (g & Hg1 & Hg2).
    apply in_map_iff. exists g. split; [exact Hg1|].
    eapply delivered_incl. exact Hg2. }
  destruct (replay_ok P k f).
  - unfold not_among at 1. cbn [existsb]. rewrite Z.eqb_refl. cbn.
    rewrite <- (IH Hrest (S k)). apply filter_ext_in. intros g Hg.
    unfold not_among. cbn [existsb].
    replace (id g =? id f) with false; [reflexivity|].
    symmetry. apply Z.eqb_neq. intros Heq. apply Hfresh. rewrite <- Heq.
    apply in_map. exact Hg.
  - rewrite Hkeep, (IH Hrest (S k)). reflexivity.
Qed.

(** The [i]-th form of the snapshot stays exactly when its replay, the
    [(k+i)]-th request, did not get a 2xx response. *)
Lemma undelivered_nth (P : Platform) (forms : list Form) :
  NoDup (map id forms) ->
  forall k i f,
    nth_error forms i = Some f ->
    (In f (undelivered P k forms) <-> replay_ok P (k + i) f = false).
Proof.
  induction forms as [|g forms IH]; intros Hnodup k i f Hnth.
  - destruct i; discriminate.
  - cbn [map] in Hnodup. inversion Hnodup as [|x l Hfresh Hrest]; subst x l.
    destruct i as [|i]; cbn in Hnth.
    + inversion Hnth; subst g. rewrite Nat.add_0_r. cbn [undelivered].
      destruct (replay_ok P k f) eqn:Hok.
      * split; [|discriminate]. intros H. exfalso. apply Hfresh.
        apply in_map. eapply undelivered_incl. exact H.
      * split; [reflexivity|]. intros _. left. reflexivity.
    + assert (Hne : g <> f).
      { intros Heq. subst g. apply Hfresh. apply in_map.
        eapply nth_error_In. exact Hnth. }
      replace (k + S i)%nat with (S k + i)%nat by lia.
      rewrite <- (IH Hrest (S k) i f Hnth). cbn [undelivered].
      destruct (replay_ok P k g); cbn; [tauto|]. split.
      * intros [H|H]; [contradiction | exact H].
      * intros H. right. exact H.
Qed.

(** C8: with a store that does not fail and unique keys, a drain replays
    every pending submission, in the order of the store, whatever the outcome
    of the replays before it; afterwards the store holds, in order, exactly
    the submissions whose replay did not get a 2xx response. *)
Theorem drain_removes_exactly_the_delivered :
  forall (P : Platform) (w : World),
    (forall k op, idb_fault P k op = None) ->
    NoDup (map id (offlineForms w)) ->
    exists w' : World,
      handleOfflineFormSubmission P w = (Returned tt, w')
      /\ fetch_log w' = fetch_log w ++ map consultation_post (offlineForms w)
      /\ offlineForms w'
         = undelivered P (List.length (fetch_log w)) (offlineForms w)
      /\ forall (i : nat) (f : Form),
           nth_error (offlineForms w) i = Some f ->
           (In f (offlineForms w') <->
            replay_ok P (List.length (fetch_log w) + i) f = false).
Proof.
  intros P w Hnofault Hnodup.
  unfold handleOfflineFormSubmission, openDB, getOfflineForms; run.
  rewrite !Hnofault. fields.
  match goal with |- context [for_of ?forms (replay P tt) ?w1] =>
    destruct (replay_loop_no_fault P forms Hnofault w1) as (w' & Hrun & Hlog & Hst)
  end.
  rewrite Hrun. fields. revert Hlog Hst. fields. intros Hlog Hst.
  exists w'. split; [reflexivity|]. split; [exact Hlog|].
  assert (Hund : offlineForms w'
                 = undelivered P (List.length (fetch_log w)) (offlineForms w)).
  { rewrite Hst. apply filter_delivered. exact Hnodup. }
  split; [exact Hund|].
  intros i f Hnth. rewrite Hund. apply undelivered_nth; assumption.
Qed.

(** A, B, C queued in that order, the replay of B rejected: all three are
    replayed in order and exactly B is left. *)
Lemma drain_removes_exactly_the_delivered_witness :
  exists w' : World,
    handleOfflineFormSubmission (example_platform only_B_fails no_fault)
      (queue_world [form_A; form_B; form_C])
    = (Returned tt, w')
    /\ fetch_log w'
       = [consultation_post form_A; consultation_post form_B;
          consultation_post form_C]
    /\ offlineForms w' = [form_B].
Proof.
  destruct (drain_removes_exactly_the_delivered
              (example_platform only_B_fails no_fault)
              (queue_world [form_A; form_B; form_C]))
    as (w' & Hrun & Hlog & Hstore & _).
  - intros k op. reflexivity.
  - repeat (constructor; [cbn; intuition lia|]). constructor.
  - exists w'. split; [exact Hrun|]. split; [exact Hlog | exact Hstore].
Defined.

(** C9 (amended): when the database cannot be opened, or its records cannot
    be read, the error is caught inside the drain and logged on the console;
    the drain returns normally, starts no request and leaves the store as it
    was. *)
Theorem drain_logs_storage_failure :
  forall (P : Platform) (w : World) (e : Error),
    idb_fault P (idb_ops w) OpOpen = Some e
    \/ (idb_fault P (idb_ops w) OpOpen = None
        /\ idb_fault P (S (idb_ops w)) OpGetAll = Some e) ->
    exists w' : World,
      handleOfflineFormSubmission P w = (Returned tt, w')
      /\ console w' = console w ++ [Failure "Error handling offline forms:" e]
      /\ offlineForms w' = offlineForms w
      /\ fetch_log w' = fetch_log w.
Proof.
  intros P w e [Hopen | [Hopen Hread]];
    unfold handleOfflineFormSubmission, openDB, getOfflineForms; run;
    rewrite Hopen; fields; [|rewrite Hread; fields];
    eexists; repeat split.
Qed.

Lemma drain_logs_storage_failure_witness :
  exists w' : World,
    handleOfflineFormSubmission (example_platform accepting_network cannot_open)
      (queue_world [form_A; form_B; form_C])
    = (Returned tt, w')
    /\ offlineForms w' = [form_A; form_B; form_C].
Proof.
  destruct (drain_logs_storage_failure
              (example_platform accepting_network cannot_open)
              (queue_world [form_A; form_B; form_C]) unknown_error)
    as (w' & Hrun & _ & Hstore & _).
  - left. reflexivity.
  - exists w'. split; [exact Hrun | exact Hstore].
Defined.

(** C9, as stated, fails: the database cannot be opened and the drain
    returns normally instead of failing. *)
Lemma drain_swallows_open_failure :
  idb_fault (example_platform accepting_network cannot_open) 0 OpOpen
  = Some unknown_error
  /\ fst (handleOfflineFormSubmission
            (example_platform accepting_network cannot_open)
            (queue_world [form_A; form_B; form_C]))
     = Returned tt.
Proof. split; vm_compute; reflexivity. Qed.

(** Whatever the network and the store do, a drain returns normally. *)
Lemma drain_never_throws (P : Platform) (w : World) :
  exists w', handleOfflineFormSubmission P w = (Returned tt, w').
Proof.
  unfold handleOfflineFormSubmission, openDB, getOfflineForms; run.
  destruct (idb_fault P (idb_ops w) OpOpen); fields; [eexists; reflexivity|].
  destruct (idb_fault P (S (idb_ops w)) OpGetAll); fields; [eexists; reflexivity|].
  match goal with |- context [for_of ?forms (replay P tt) ?w1] =>
    destruct (replay_loop_total P forms w1) as (w' & Hrun & _) end.
  rewrite Hrun. eexists; reflexivity.
Qed.

(** A drain whose database opens and reads replays the whole snapshot. *)
Lemma drain_replays_snapshot (P : Platform) (w : World) :
  idb_fault P (idb_ops w) OpOpen = None ->
  idb_fault P (S (idb_ops w)) OpGetAll = None ->
  exists w',
    handleOfflineFormSubmission P w = (Returned tt, w')
    /\ for_of (offlineForms w) (replay P tt)
         (set_idb_ops w (S (S (idb_ops w)))) = (Returned tt, w').
Proof.
  intros Hopen Hread.
  unfold handleOfflineFormSubmission, openDB, getOfflineForms; run.
  rewrite Hopen; fields. rewrite Hread; fields.
  match goal with |- context [for_of ?forms (replay P tt) ?w1] =>
    destruct (replay_loop_total P forms w1) as (w' & Hrun & _) end.
  rewrite Hrun. exists w'. split; [reflexivity | exact Hrun].
Qed.

(** C10: a submission whose replay gets a 2xx response and whose deletion
    fails stays in the store: the error is caught and logged, the drain
    returns normally and replays the submissions after it; the next drain
    that can read the store posts the same submission again, so the log of
    requests holds its POST twice. *)
Theorem drain_replays_again_after_failed_delete :
  forall (P : Platform) (w : World) (before after : list Form) (f : Form)
         (r : Response) (e : Error),
    offlineForms w = before ++ f :: after ->
    idb_fault P (idb_ops w) OpOpen = None ->
    idb_fault P (S (idb_ops w)) OpGetAll = None ->
    network P (List.length (fetch_log w) + List.length before)
            (consultation_post f) = Resolved r ->
    ok r = true ->
    (forall k, idb_fault P k (OpDelete (id f)) = Some e) ->
    exists w1 : World,
      handleOfflineFormSubmission P w = (Returned tt, w1)
      /\ In f (offlineForms w1)
      /\ In (Failure "Failed to submit offline form:" e) (console w1)
      /\ fetch_log w1
         = fetch_log w ++ map consultation_post before
           ++ consultation_post f :: map consultation_post after
      /\ forall P2 : Platform,
           idb_fault P2 (idb_ops w1) OpOpen = None ->
           idb_fault P2 (S (idb_ops w1)) OpGetAll = None ->
           exists (w2 : World) (l1 l2 : list Request),
             handleOfflineFormSubmission P2 w1 = (Returned tt, w2)
             /\ fetch_log w2
                = fetch_log w ++ map consultation_post before
                  ++ consultation_post f :: map consultation_post after
                  ++ l1 ++ consultation_post f :: l2.
Proof.
  intros P w before after f r e Hstore Hopen Hread Hnet Hok Hdel.
  destruct (drain_replays_snapshot P w Hopen Hread) as (w1 & Hdrain & Hloop).
  exists w1. split; [exact Hdrain|].
  set (w0 := set_idb_ops w (S (S (idb_ops w)))) in *.
  assert (Hin : In f (offlineForms w1)).
  { destruct (replay_loop_total P (offlineForms w) w0) as (w1' & Hrun & _ & _ & Hkeep).
    rewrite Hloop in Hrun. inversion Hrun; subst w1'.
    apply Hkeep.
    - unfold w0. fields. rewrite Hstore. apply in_elt.
    - intros k. rewrite Hdel. discriminate. }
  assert (Hlog : fetch_log w1
                 = fetch_log w ++ map consultation_post before
                   ++ consultation_post f :: map consultation_post after).
  { destruct (replay_loop_total P (offlineForms w) w0) as (w1' & Hrun & Hl & _).
    rewrite Hloop in Hrun. inversion Hrun; subst w1'.
    rewrite Hl, Hstore, map_app. reflexivity. }
  split; [exact Hin|]. split; [|split; [exact Hlog|]].
  - rewrite Hstore, for_of_app in Hloop.
    destruct (replay_loop_total P before w0) as (wa & Hrun_a & Hlog_a & _).
    rewrite Hrun_a in Hloop. cbn [for_of] in Hloop. unfold bind in Hloop.
    destruct (replay_step P f wa) as (wb & Hrun_b & _ & _ & _ & Hlogged).
    rewrite Hrun_b in Hloop.
    destruct (replay_loop_total P after wb) as (wc & Hrun_c & _ & [c Hc] & _).
    rewrite Hrun_c in Hloop. inversion Hloop; subst wc.
    rewrite Hc. apply in_or_app. left. apply (Hlogged) with (e := e).
    + unfold replay_ok. rewrite Hlog_a, length_app, length_map.
      unfold w0. fields. rewrite Hnet. exact Hok.
    + apply Hdel.
  - intros P2 Hopen2 Hread2.
    destruct (drain_replays_snapshot P2 w1 Hopen2 Hread2) as (w2 & Hdrain2 & Hloop2).
    destruct (replay_loop_total P2 (offlineForms w1)
                (set_idb_ops w1 (S (S (idb_ops w1)))))
      as (w2' & Hrun2 & Hlog2 & _).
    rewrite Hloop2 in Hrun2. inversion Hrun2; subst w2'.
    destruct (in_split _ _ Hin) as (q1 & q2 & Hq).
    exists w2, (map consultation_post q1), (map consultation_post q2).
    split; [exact Hdrain2|].
    rewrite Hlog2. fields. rewrite Hlog, Hq, map_app. cbn [map].
    rewrite <- !app_assoc. cbn [app]. reflexivity.
Qed.

Lemma drain_replays_again_after_failed_delete_witness :
  exists w1 : World,
    handleOfflineFormSubmission (example_platform accepting_network cannot_delete_2)
      (queue_world [form_A; form_B; form_C])
    = (Returned tt, w1)
    /\ In form_B (offlineForms w1)
    /\ In (Failure "Failed to submit offline form:" quota_error) (console w1).
Proof.
  destruct (drain_replays_again_after_failed_delete
              (example_platform accepting_network cannot_delete_2)
              (queue_world [form_A; form_B; form_C])
              [form_A] [form_C] form_B response_201 quota_error)
    as (w1 & Hrun & Hin & Hlogged & _).
  - reflexivity.
  - reflexivity.
  - reflexivity.
  - reflexivity.
  - reflexivity.
  - intros k. reflexivity.
  - exists w1. split; [exact Hrun|]. split; [exact Hin | exact Hlogged].
Defined.

(** Two drains in a row with a record that cannot be deleted: the endpoint
    receives the submission of B twice. *)
Example two_drains_post_B_twice :
  fetch_log
    (snd (handleOfflineFormSubmission
            (example_platform accepting_network cannot_delete_2)
            (snd (handleOfflineFormSubmission
                    (example_platform accepting_network cannot_delete_2)
                    (queue_world [form_A; form_B; form_C])))))
  = [consultation_post form_A; consultation_post form_B;
     consultation_post form_C; consultation_post form_B].
Proof. vm_compute. reflexivity. Qed.

(** * Further properties of the service worker *)

(** ** Cache Storage: storing and finding *)

Lemma cache_lookup_insert (key : string) (r : Response) (c : Cache) :
  cache_lookup key (cache_insert key r c) = Some r.
Proof.
  unfold cache_lookup.
  induction c as [|[k v] c IH]; cbn.
  - rewrite String.eqb_refl. reflexivity.
  - destruct (String.eqb key k) eqn:E; cbn; rewrite E; [reflexivity | exact IH].
Qed.

Lemma cache_lookup_insert_other (key key' : string) (r : Response) (c : Cache) :
  key <> key' ->
  cache_lookup key (cache_insert key' r c) = cache_lookup key c.
Proof.
  intros Hne. unfold cache_lookup.
  induction c as [|[k v] c IH]; cbn.
  - destruct (String.eqb_spec key key'); [contradiction | reflexivity].
  - destruct (String.eqb_spec key' k) as [->|Hk]; cbn.
    + destruct (String.eqb_spec key k); [contradiction | reflexivity].
    + destruct (String.eqb key k); [reflexivity | exact IH].
Qed.

Lemma has_partition_put (name name' key : string) (r : Response) (cs : CacheStorage) :
  has_partition name (storage_put name' key r cs) = has_partition name cs.
Proof.
  unfold has_partition.
  induction cs as [|[n c] cs IH]; cbn; [reflexivity|].
  destruct (String.eqb name' n); cbn; [reflexivity | rewrite IH; reflexivity].
Qed.

Lemma has_partition_created (name : string) (cs : CacheStorage) :
  has_partition name (cs ++ [(name, [])]) = true.
Proof.
  unfold has_partition. rewrite existsb_app. cbn.
  rewrite String.eqb_refl. apply orb_true_iff. right. reflexivity.
Qed.

Lemma partition_lookup_put (name key : string) (r : Response) (cs : CacheStorage) :
  has_partition name cs = true ->
  partition_lookup name key (storage_put name key r cs) = Some r.
Proof.
  unfold partition_lookup, partition, has_partition.
  induction cs as [|[n c] cs IH]; cbn; [discriminate|].
  destruct (String.eqb name n) eqn:E; cbn; rewrite E; cbn.
  - intros _. apply cache_lookup_insert.
  - exact IH.
Qed.

Lemma partition_lookup_put_other (name key key' : string) (r : Response)
  (cs : CacheStorage) :
  key <> key' ->
  partition_lookup name key (storage_put name key' r cs)
  = partition_lookup name key cs.
Proof.
  intros Hne. unfold partition_lookup, partition.
  induction cs as [|[n c] cs IH]; cbn; [reflexivity|].
  destruct (String.eqb name n) eqn:E; cbn; rewrite E; cbn.
  - apply cache_lookup_insert_other. exact Hne.
  - exact IH.
Qed.





(** What [isCacheExpired] leaves behind, with its outcome. *)
Lemma isCacheExpired_run (P : Platform) (response : Response) (w : World) :
  exists (o : Outcome bool) (n : nat),
    isCacheExpired P response w = (o, set_clock_reads w n).
Proof.
  destruct (isCacheExpired_clock_only P response w) as [n Hn].
  destruct (isCacheExpired P response w) as [o w1]. cbn in Hn. subst w1.
  exists o, n. reflexivity.
Qed.

(** ** CacheFirst: offline service and the path through the network *)

(** X1: an entry that [caches.match] finds is what [cacheFirstStrategy]
    answers whenever the network is down, be the entry fresh, expired or of a
    URL the expiry check cannot parse; the partitions are left as they were. *)
Theorem cacheFirst_serves_entry_when_offline :
  forall (P : Platform) (request : Request) (w : World) (c : Response)
         (e : Error),
    storage_lookup (url request) (caches w) = Some c ->
    network P (List.length (fetch_log w)) request = Rejected e ->
    exists w' : World,
      cacheFirstStrategy P request w = (Returned (Some c), w')
      /\ caches w' = caches w.
Proof.
  intros P request w c e Hhit Hnet.
  unfold cacheFirstStrategy, present_and_fresh; run. rewrite Hhit.
  destruct (isCacheExpired_run P c w) as (o & n & Hrun). rewrite Hrun.
  destruct o as [[|]|e']; cbn [negb]; fields.
  - rewrite Hnet. fields. rewrite Hhit. eexists. split; reflexivity.
  - eexists. split; reflexivity.
  - rewrite Hhit. eexists. split; reflexivity.
Qed.

Lemma cacheFirst_serves_entry_when_offline_witness :
  exists w' : World,
    cacheFirstStrategy offline_platform (GET about_url navigate)
      (world_with [(DYNAMIC_CACHE_NAME, [(about_url, old_about)])])
    = (Returned (Some old_about), w').
Proof.
  destruct (cacheFirst_serves_entry_when_offline offline_platform
              (GET about_url navigate)
              (world_with [(DYNAMIC_CACHE_NAME, [(about_url, old_about)])])
              old_about failed_to_fetch eq_refl eq_refl)
    as (w' & Hrun & _).
  exists w'. exact Hrun.
Defined.



(** X3: without a fresh entry, a network response whose status is not 200
    is handed to the caller as it is and nothing is stored, even when an
    expired entry for the request exists. *)
Theorem cacheFirst_passes_error_response_through :
  forall (P : Platform) (request : Request) (w : World) (r : Response),
    fst (present_and_fresh P (storage_lookup (url request) (caches w)) w)
    = Returned false ->
    network P (List.length (fetch_log w)) request = Resolved r ->
    status r <> 200 ->
    exists w' : World,
      cacheFirstStrategy P request w = (Returned (Some r), w')
      /\ caches w' = caches w.
Proof.
  intros P request w r Hstale Hnet Hstatus.
  unfold cacheFirstStrategy; run.
  assert (Hw : exists n, present_and_fresh P (storage_lookup (url request) (caches w)) w
                         = (Returned false, set_clock_reads w n)).
  { revert Hstale. unfold present_and_fresh.
    destruct (storage_lookup (url request) (caches w)) as [c|]; run.
    - destruct (isCacheExpired_run P c w) as (o & n & Hrun). rewrite Hrun.
      destruct o as [b|e]; cbn; intros H; [|discriminate].
      exists n. inversion H. reflexivity.
    - intros _. exists (clock_reads w). destruct w; reflexivity. }
  destruct Hw as [n Hw]. rewrite Hw. fields. rewrite Hnet.
  apply Z.eqb_neq in Hstatus. rewrite Hstatus. fields.
  eexists. split; reflexivity.
Qed.

Lemma cacheFirst_passes_error_response_through_witness :
  exists w' : World,
    cacheFirstStrategy unavailable_platform (GET about_url navigate)
      (world_with [(DYNAMIC_CACHE_NAME, [(about_url, old_about)])])
    = (Returned (Some (response_503 about_url)), w')
    /\ caches w' = [(DYNAMIC_CACHE_NAME, [(about_url, old_about)])].
Proof.
  apply (cacheFirst_passes_error_response_through unavailable_platform
           (GET about_url navigate)
           (world_with [(DYNAMIC_CACHE_NAME, [(about_url, old_about)])])
           (response_503 about_url)).
  - reflexivity.
  - reflexivity.
  - vm_compute. discriminate.
Defined.

(** ** NetworkFirst: what a 200 response leaves behind *)



(** X5: the fallback of [networkFirstStrategy] looks in every partition, in
    creation order, while a 200 response is stored in the dynamic one: when
    an earlier partition of another name holds an entry for the request, that
    entry, and not the response stored last, answers the request once the
    network is down. *)
Theorem networkFirst_fallback_prefers_earlier_partition :
  forall (P P2 : Platform) (request : Request) (w : World) (r c : Response)
         (e : Error) (name : string) (cache : Cache) (rest : CacheStorage),
    caches w = (name, cache) :: rest ->
    name <> DYNAMIC_CACHE_NAME ->
    cache_lookup (url request) cache = Some c ->
    network P (List.length (fetch_log w)) request = Resolved r ->
    status r = 200 ->
    exists w1 : World,
      networkFirstStrategy P request w = (Returned (Some r), w1)
      /\ partition_lookup DYNAMIC_CACHE_NAME (url request) (caches w1) = Some r
      /\ (network P2 (List.length (fetch_log w1)) request = Rejected e ->
          exists w2 : World,
            networkFirstStrategy P2 request w1 = (Returned (Some c), w2)).
Proof.
  intros P P2 request w r c e name cache rest Hcs Hname Hc Hnet Hstatus.
  assert (Hne : String.eqb DYNAMIC_CACHE_NAME name = false).
  { apply String.eqb_neq. intros H. apply Hname. symmetry. exact H. }
  assert (Hfirst : forall cs,
             storage_lookup (url request)
               (storage_put DYNAMIC_CACHE_NAME (url request) r ((name, cache) :: cs))
             = Some c).
  { intros cs. cbn [storage_put]. rewrite Hne. cbn [storage_lookup].
    rewrite Hc. reflexivity. }
  unfold networkFirstStrategy at 1; run. rewrite Hnet. fields.
  rewrite Hstatus. cbn [Z.eqb Pos.eqb]. fields.
  destruct (has_partition DYNAMIC_CACHE_NAME (caches w)) eqn:Hhas; fields;
    eexists; (split; [reflexivity|]); fields.
  - split; [apply partition_lookup_put; exact Hhas|].
    intros Hdown. unfold networkFirstStrategy; run. fields.
    rewrite Hdown. fields. rewrite Hcs, Hfirst. eexists; reflexivity.
  - split; [apply partition_lookup_put, has_partition_created|].
    intros Hdown. unfold networkFirstStrategy; run. fields.
    rewrite Hdown. fields. rewrite Hcs. cbn [app]. rewrite Hfirst.
    eexists; reflexivity.
Qed.

Lemma networkFirst_fallback_prefers_earlier_partition_witness :
  exists w1 : World,
    networkFirstStrategy serving_platform (GET api_url cors)
      (world_with [(STATIC_CACHE_NAME, [(api_url, cached_leads)])])
    = (Returned (Some (page_200 api_url)), w1)
    /\ exists w2 : World,
         networkFirstStrategy offline_platform (GET api_url cors) w1
         = (Returned (Some cached_leads), w2).
Proof.
  destruct (networkFirst_fallback_prefers_earlier_partition serving_platform
              offline_platform (GET api_url cors)
              (world_with [(STATIC_CACHE_NAME, [(api_url, cached_leads)])])
              (page_200 api_url) cached_leads failed_to_fetch
              STATIC_CACHE_NAME [(api_url, cached_leads)] [])
    as (w1 & Hrun & _ & Hoffline).
  - reflexivity.
  - vm_compute. discriminate.
  - reflexivity.
  - reflexivity.
  - reflexivity.
  - exists w1. split; [exact Hrun | apply Hoffline; reflexivity].
Defined.

(** ** StaleWhileRevalidate: where the refresh lands *)





(** ** Only 200 responses are stored *)

Lemma only_200_insert (key : string) (r : Response) (c : Cache) :
  (status r =? 200) = true ->
  forallb (fun kv => status (snd kv) =? 200) c = true ->
  forallb (fun kv => status (snd kv) =? 200) (cache_insert key r c) = true.
Proof.
  intros Hr. induction c as [|[k v] c IH]; cbn.
  - intros _. rewrite Hr. reflexivity.
  - intros H. apply andb_prop in H. destruct H as [Hv Hc].
    destruct (String.eqb key k); cbn.
    + rewrite Hr, Hc. reflexivity.
    + rewrite Hv, (IH Hc). reflexivity.
Qed.

Lemma only_200_put (name key : string) (r : Response) (cs : CacheStorage) :
  (status r =? 200) = true ->
  only_200 cs = true -> only_200 (storage_put name key r cs) = true.
Proof.
  intros Hr. unfold only_200. induction cs as [|[n c] cs IH]; cbn; [auto|].
  intros H. apply andb_prop in H. destruct H as [Hc Hcs].
  destruct (String.eqb name n); cbn.
  - rewrite (only_200_insert key r c Hr Hc), Hcs. reflexivity.
  - rewrite Hc, (IH Hcs). reflexivity.
Qed.

Lemma only_200_created (name : string) (cs : CacheStorage) :
  only_200 cs = true -> only_200 (cs ++ [(name, [])]) = true.
Proof.
  unfold only_200. intros H. rewrite forallb_app.
  apply andb_true_intro. split; [exact H | reflexivity].
Qed.

Lemma keeps_ret {A : Type} (a : A) : keeps (ret a).
Proof. intros w H. exact H. Qed.

Lemma keeps_throw {A : Type} (e : Error) : keeps (@throw A e).
Proof. intros w H. exact H. Qed.

Lemma keeps_lift {A : Type} (o : Outcome A) : keeps (lift o).
Proof. intros w H. exact H. Qed.

Lemma keeps_bind {A B : Type} (m : M A) (f : A -> M B) :
  keeps m -> (forall a, keeps (f a)) -> keeps (bind m f).
Proof.
  intros Hm Hf w H. unfold bind. specialize (Hm w H).
  destruct (m w) as [[a|e] w1]; cbn in *; [apply Hf; exact Hm | exact Hm].
Qed.

Lemma keeps_try_catch {A : Type} (m : M A) (h : Error -> M A) :
  keeps m -> (forall e, keeps (h e)) -> keeps (try_catch m h).
Proof.
  intros Hm Hh w H. unfold try_catch. specialize (Hm w H).
  destruct (m w) as [[a|e] w1]; cbn in *; [exact Hm | apply Hh; exact Hm].
Qed.

Lemma keeps_console_log (msg : string) : keeps (console_log msg).
Proof. intros w H. exact H. Qed.

Lemma keeps_console_error (msg : string) (e : Error) : keeps (console_error msg e).
Proof. intros w H. exact H. Qed.

Lemma keeps_caches_match (key : string) : keeps (caches_match key).
Proof. intros w H. exact H. Qed.

Lemma keeps_cache_match (cache key : string) : keeps (cache_match cache key).
Proof. intros w H. exact H. Qed.

Lemma keeps_caches_open (name : string) : keeps (caches_open name).
Proof.
  intros w H. unfold caches_open.
  destruct (has_partition name (caches w)); cbn; [exact H|].
  apply only_200_created. exact H.
Qed.

Lemma keeps_cache_put (cache : string) (request : Request) (r : Response) :
  (status r =? 200) = true -> keeps (cache_put cache request r).
Proof. intros Hr w H. cbn. apply only_200_put; assumption. Qed.

Lemma keeps_fetch (P : Platform) (request : Request) : keeps (fetch P request).
Proof.
  intros w H. unfold fetch.
  destruct (network P (List.length (fetch_log w)) request); exact H.
Qed.

Lemma keeps_fetch_then_catch (cache : string) (request : Request) :
  keeps (fetch_then_catch cache request).
Proof. intros w H. exact H. Qed.

Lemma keeps_present_and_fresh (P : Platform) (o : option Response) :
  keeps (present_and_fresh P o).
Proof.
  intros w H. destruct o as [c|]; [|exact H].
  unfold present_and_fresh, bind, ret.
  destruct (isCacheExpired_run P c w) as (b & n & Hrun). rewrite Hrun.
  destruct b; exact H.
Qed.

Ltac keeps_step :=
  first
    [ apply keeps_bind; [|intro]
    | apply keeps_try_catch; [|intro]
    | apply keeps_ret | apply keeps_throw | apply keeps_lift
    | apply keeps_console_log | apply keeps_console_error
    | apply keeps_caches_match | apply keeps_cache_match
    | apply keeps_caches_open | apply keeps_fetch
    | apply keeps_fetch_then_catch | apply keeps_present_and_fresh
    | apply keeps_cache_put; assumption
    | match goal with
      | |- keeps (if ?b then _ else _) => destruct b eqn:?
      | |- keeps (match ?x with _ => _ end) => destruct x eqn:?
      end ].

Lemma keeps_settle (P : Platform) (p : Pending) : keeps (settle P p).
Proof.
  destruct p as [k cache request|key]; unfold settle.
  - apply keeps_bind; [intros w H; exact H | intros _].
    repeat keeps_step.
  - apply keeps_caches_match.
Qed.

Lemma keeps_async_return (P : Platform) (v : Val) : keeps (async_return P v).
Proof.
  destruct v; unfold async_return;
    [apply keeps_ret | apply keeps_ret | apply keeps_settle].
Qed.

(** X8: whatever the network answers, a strategy leaves Cache Storage with
    responses of status 200 only when it finds it so, and so does the
    settling of a revalidation that was left in flight. *)
Theorem strategies_store_only_200 :
  forall (P : Platform) (request : Request) (w : World),
    only_200 (caches w) = true ->
    (forall s : Strategy,
        only_200 (caches (snd (respond P s request w))) = true)
    /\ (forall (k : nat) (cache : string),
          only_200 (caches (snd (settle P (FetchThenCatch k cache request) w)))
          = true).
Proof.
  intros P request w H. split.
  - intros s. revert w H. change (keeps (respond P s request)).
    destruct s; unfold respond, networkFirstStrategy, cacheFirstStrategy,
                       staleWhileRevalidateStrategy;
      repeat keeps_step; apply keeps_async_return.
  - intros k cache. apply keeps_settle. exact H.
Qed.

Lemma strategies_store_only_200_witness :
  only_200 (caches (snd (respond unavailable_platform CacheFirst
                           (GET styles_url no_cors) empty_world)))
  = true.
Proof.
  apply (strategies_store_only_200 unavailable_platform
           (GET styles_url no_cors) empty_world eq_refl).
Defined.

(** ** The fetch listener: routing *)

Lemma not_network_first_no_api (u : string) :
  shouldUseNetworkFirst u = false -> includes u "/api/" = false.
Proof.
  unfold shouldUseNetworkFirst, NETWORK_FIRST. cbn [existsb].
  intros H. apply orb_false_elim in H. destruct H as [H _]. exact H.
Qed.

(** X9: a request the listener routes to CacheFirst is stored in the static
    partition and its entry is of the static expiry class; one it routes to
    StaleWhileRevalidate belongs to the dynamic partition and class.  So the
    one-hour class of [isCacheExpired] is never that of the entry of a
    request routed to either strategy. *)
Theorem routing_agrees_with_partition_and_expiry :
  forall (P : Platform) (request : Request) (s : Strategy),
    classify P request = Returned (Some s) ->
    s <> NetworkFirst ->
    getCacheName P (url request)
    = Returned (match s with
                | CacheFirst => STATIC_CACHE_NAME
                | _ => DYNAMIC_CACHE_NAME
                end)
    /\ forall response : Response,
         resp_url response = url request ->
         expiry_class P response
         = Returned (match s with
                     | CacheFirst => static_class
                     | _ => dynamic_class
                     end).
Proof.
  intros P request s Hroute Hs. unfold classify in Hroute.
  destruct (URL_pathname P (url request)) as [pathname|] eqn:Hpath;
    [|discriminate].
  destruct (negb (String.eqb (method request) "GET")); [discriminate|].
  destruct (negb (startsWith (url request) "http")); [discriminate|].
  destruct (shouldUseNetworkFirst (url request)) eqn:Hnf.
  - inversion Hroute; subst s. contradiction.
  - pose proof (not_network_first_no_api _ Hnf) as Hapi.
    unfold getCacheName, expiry_class.
    destruct (isStaticAsset P (url request)) as [[|]|e] eqn:Hstatic;
      inversion Hroute; subst s;
      (split; [reflexivity|]);
      intros response Hurl; rewrite Hurl, Hapi, Hstatic; reflexivity.
Qed.

Lemma routing_agrees_with_partition_and_expiry_witness :
  getCacheName offline_platform styles_url = Returned STATIC_CACHE_NAME
  /\ expiry_class offline_platform fresh_styles = Returned static_class.
Proof.
  destruct (routing_agrees_with_partition_and_expiry offline_platform
              (GET styles_url no_cors) CacheFirst eq_refl)
    as [Hname Hclass].
  - discriminate.
  - split; [exact Hname | apply Hclass; reflexivity].
Defined.

(** X10: a GET request of an http(s) URL is routed to NetworkFirst exactly
    when its URL contains [/api/], [/contact] or [?fresh=true], anywhere and
    whether or not it is also a static asset. *)
Theorem classify_network_first_iff :
  forall (P : Platform) (request : Request) (pathname : string),
    URL_pathname P (url request) = Some pathname ->
    method request = "GET" ->
    startsWith (url request) "http" = true ->
    (classify P request = Returned (Some NetworkFirst) <->
     includes (url request) "/api/" = true
     \/ includes (url request) "/contact" = true
     \/ includes (url request) "?fresh=true" = true).
Proof.
  intros P request pathname Hpath Hget Hhttp.
  unfold classify. rewrite Hpath, Hget, Hhttp.
  rewrite String.eqb_refl. cbn [negb].
  assert (Hnf : shouldUseNetworkFirst (url request) = true <->
                includes (url request) "/api/" = true
                \/ includes (url request) "/contact" = true
                \/ includes (url request) "?fresh=true" = true).
  { unfold shouldUseNetworkFirst, NETWORK_FIRST. cbn [existsb].
    rewrite orb_false_r, !orb_true_iff. tauto. }
  rewrite <- Hnf.
  destruct (shouldUseNetworkFirst (url request)).
  - split; reflexivity.
  - split; [|discriminate].
    destruct (isStaticAsset P (url request)) as [[|]|e]; discriminate.
Qed.

(** A script under [/assets/] whose name starts with [contact] is fetched
    network first. *)
Lemma classify_network_first_iff_witness :
  classify offline_platform
    (GET "https://geniusglider.com/assets/js/contact-form.js" no_cors)
  = Returned (Some NetworkFirst).
Proof.
  apply (classify_network_first_iff offline_platform
           (GET "https://geniusglider.com/assets/js/contact-form.js" no_cors)
           "/assets/js/contact-form.js" eq_refl eq_refl eq_refl).
  right. left. reflexivity.
Defined.

(** ** Activation, once more *)

Lemma activate_run (w : World) :
  exists w' : World,
    activate w = (Returned tt, w')
    /\ caches w' = filter (fun p => negb (is_old_cache (fst p))) (caches w)
    /\ offlineForms w' = offlineForms w
    /\ fetch_log w' = fetch_log w.
Proof.
  unfold activate; run. fields.
  match goal with |- context [for_of ?names delete_if_old ?w1] =>
    destruct (sweep_spec names w1) as (w' & Hrun & Hc & Hf & Hl) end.
  rewrite Hrun. eexists. split; [reflexivity|]. fields.
  revert Hc Hf Hl. fields. intros Hc Hf Hl.
  split; [|split; assumption].
  rewrite Hc. apply filter_ext_in. intros p Hp. f_equal.
  destruct (is_old_cache (fst p)) eqn:Hold.
  - apply existsb_exists. exists (fst p). split.
    + apply in_map. exact Hp.
    + rewrite Hold, String.eqb_refl. reflexivity.
  - apply not_true_is_false. intros H. apply existsb_exists in H.
    destruct H as (n & _ & Hn). apply andb_prop in Hn. destruct Hn as [Hn1 Hn2].
    apply String.eqb_eq in Hn2. subst n. congruence.
Qed.

(** X11: activation is idempotent on Cache Storage, and it neither touches
    the queue of offline forms nor starts a network request: a second
    activation finds nothing left to delete. *)
Theorem activate_idempotent :
  forall w : World,
  exists w1 w2 : World,
    activate w = (Returned tt, w1)
    /\ activate w1 = (Returned tt, w2)
    /\ caches w2 = caches w1
    /\ offlineForms w2 = offlineForms w
    /\ fetch_log w2 = fetch_log w.
Proof.
  intros w.
  destruct (activate_run w) as (w1 & Hrun1 & Hc1 & Hf1 & Hl1).
  destruct (activate_run w1) as (w2 & Hrun2 & Hc2 & Hf2 & Hl2).
  exists w1, w2. split; [exact Hrun1|]. split; [exact Hrun2|]. split.
  - rewrite Hc2, Hc1, filter_twice. apply filter_ext.
    intros p. apply andb_diag.
  - split; congruence.
Qed.

(** ** Installation *)

Lemma append_injective (a b c : string) :
  String.append a b = String.append a c -> b = c.
Proof.
  induction a as [|ch a IH]; cbn; intros H; [exact H|].
  inversion H. apply IH. assumption.
Qed.

Lemma NoDup_STATIC_FILES : NoDup STATIC_FILES.
Proof.
  unfold STATIC_FILES.
  repeat (constructor; [cbn; intuition discriminate|]). constructor.
Qed.

Lemma NoDup_map_append (a : string) (l : list string) :
  NoDup l -> NoDup (map (String.append a) l).
Proof.
  induction 1 as [|x l Hx Hl IH]; cbn; constructor; [|exact IH].
  intros Hin. apply in_map_iff in Hin. destruct Hin as (y & Hy & Hin).
  apply append_injective in Hy. subst y. contradiction.
Qed.

(** When every request succeeds, the entries are the responses, in order. *)
Lemma fetch_all_ok (P : Platform) (origin : string) (paths : list string) :
  forall k : nat,
    (forall i path, nth_error paths i = Some path ->
       exists r, network P (k + i) (precache_request origin path) = Resolved r
                 /\ addable r = true) ->
    exists entries : list (string * Response),
      fetch_all P origin k paths = Returned entries
      /\ map fst entries = map (String.append origin) paths
      /\ forall i path r,
           nth_error paths i = Some path ->
           network P (k + i) (precache_request origin path) = Resolved r ->
           In (String.append origin path, r) entries.
Proof.
  induction paths as [|p paths IH]; intros k Hall.
  - exists []. repeat split. intros [|i] path r H; discriminate.
  - destruct (Hall 0%nat p eq_refl) as (r0 & Hr0 & Hadd).
    rewrite Nat.add_0_r in Hr0.
    destruct (IH (S k)) as (entries & Hrun & Hkeys & Hin).
    { intros i path Hnth. specialize (Hall (S i) path Hnth).
      replace (S k + i)%nat with (k + S i)%nat by lia. exact Hall. }
    cbn [fetch_all]. rewrite Hr0, Hadd, Hrun.
    eexists. split; [reflexivity|]. split; [cbn; rewrite Hkeys; reflexivity|].
    intros [|i] path r Hnth Hnet; cbn in Hnth.
    + inversion Hnth; subst path. rewrite Nat.add_0_r, Hr0 in Hnet.
      inversion Hnet. left. reflexivity.
    + right. apply (Hin i); [exact Hnth|].
      replace (S k + i)%nat with (k + S i)%nat by lia. exact Hnet.
Qed.

(** When one request fails, nothing is to be stored. *)
Lemma fetch_all_fails (P : Platform) (origin : string) (paths : list string) :
  forall (k i : nat) (path : string),
    nth_error paths i = Some path ->
    match network P (k + i) (precache_request origin path) with
    | Resolved r => addable r = false
    | Rejected _ => True
    end ->
    exists e : Error, fetch_all P origin k paths = Thrown e.
Proof.
  induction paths as [|p paths IH]; intros k i path Hnth Hbad.
  - destruct i; discriminate.
  - cbn [fetch_all]. destruct i as [|i]; cbn in Hnth.
    + inversion Hnth; subst p. rewrite Nat.add_0_r in Hbad.
      destruct (network P k (precache_request origin path)) as [r|e].
      * rewrite Hbad. eexists; reflexivity.
      * eexists; reflexivity.
    + destruct (network P k (precache_request origin p)) as [r|e];
        [|eexists; reflexivity].
      destruct (addable r); [|eexists; reflexivity].
      destruct (IH (S k) i path Hnth) as [e He].
      { replace (S k + i)%nat with (k + S i)%nat by lia. exact Hbad. }
      rewrite He. eexists; reflexivity.
Qed.

Lemma put_all_has_partition (name cache : string)
  (entries : list (string * Response)) :
  forall cs, has_partition name (put_all cache entries cs) = has_partition name cs.
Proof.
  unfold put_all.
  induction entries as [|[k r] entries IH]; intros cs; cbn [fold_left fst snd].
  - reflexivity.
  - rewrite IH. apply has_partition_put.
Qed.

Lemma put_all_other_key (name key : string) (entries : list (string * Response)) :
  ~ In key (map fst entries) ->
  forall cs,
    partition_lookup name key (put_all name entries cs)
    = partition_lookup name key cs.
Proof.
  unfold put_all.
  induction entries as [|[k r] entries IH]; intros Hout cs;
    cbn [fold_left fst snd].
  - reflexivity.
  - rewrite IH by (intros H; apply Hout; right; exact H).
    apply partition_lookup_put_other. intros Heq. apply Hout. left.
    symmetry. exact Heq.
Qed.

Lemma put_all_lookup (name key : string) (r : Response)
  (entries : list (string * Response)) :
  NoDup (map fst entries) ->
  In (key, r) entries ->
  forall cs,
    has_partition name cs = true ->
    partition_lookup name key (put_all name entries cs) = Some r.
Proof.
  induction entries as [|[k r'] entries IH]; intros Hnodup Hin cs Hhas.
  - contradiction.
  - cbn [map fst] in Hnodup. inversion Hnodup as [|x l Hfresh Hrest]; subst x l.
    destruct Hin as [Heq | Hin].
    + inversion Heq; subst k r'. unfold put_all. cbn [fold_left fst snd].
      fold (put_all name entries (storage_put name key r cs)).
      rewrite put_all_other_key by exact Hfresh.
      apply partition_lookup_put. exact Hhas.
    + unfold put_all. cbn [fold_left fst snd].
      fold (put_all name entries (storage_put name k r' cs)).
      apply IH; [exact Hrest | exact Hin |].
      rewrite has_partition_put. exact Hhas.
Qed.

Lemma partition_lookup_found (name key : string) (r : Response) (cs : CacheStorage) :
  partition_lookup name key cs = Some r ->
  storage_lookup key cs <> None.
Proof.
  unfold partition_lookup, partition.
  induction cs as [|[n c] cs IH]; cbn; [discriminate|].
  destruct (String.eqb name n); cbn.
  - intros H. rewrite H. discriminate.
  - intros H. destruct (cache_lookup key c); [discriminate | apply IH; exact H].
Qed.

(** X12: when each of the eight app-shell requests resolves to a response
    that [addAll] accepts, installation stores each response in the static
    partition under the URL of its path, so that [caches.match] finds an
    entry for every app-shell URL. *)
Theorem install_precaches_app_shell :
  forall (P : Platform) (site : string) (w : World),
    (forall i path, nth_error STATIC_FILES i = Some path ->
       exists r,
         network P (List.length (fetch_log w) + i) (precache_request site path)
         = Resolved r /\ addable r = true) ->
    exists w' : World,
      install P site w = (Returned tt, w')
      /\ fetch_log w' = fetch_log w ++ map (precache_request site) STATIC_FILES
      /\ forall i path r,
           nth_error STATIC_FILES i = Some path ->
           network P (List.length (fetch_log w) + i) (precache_request site path)
           = Resolved r ->
           partition_lookup STATIC_CACHE_NAME (String.append site path) (caches w')
           = Some r
           /\ storage_lookup (String.append site path) (caches w') <> None.
Proof.
  intros P site w Hall.
  destruct (fetch_all_ok P site STATIC_FILES (List.length (fetch_log w)) Hall)
    as (entries & Hrun & Hkeys & Hin).
  assert (Hnodup : NoDup (map fst entries)).
  { rewrite Hkeys. apply NoDup_map_append, NoDup_STATIC_FILES. }
  unfold install, cache_addAll; run. fields.
  destruct (has_partition STATIC_CACHE_NAME (caches w)) eqn:Hhas; fields;
    rewrite Hrun; fields; eexists; (split; [reflexivity|]); fields;
    (split; [reflexivity|]);
    intros i path r Hnth Hnet;
    pose proof (Hin i path r Hnth Hnet) as Hentry.
  - assert (Hfound : partition_lookup STATIC_CACHE_NAME (String.append site path)
                       (put_all STATIC_CACHE_NAME entries (caches w)) = Some r)
      by (apply put_all_lookup; assumption).
    split; [exact Hfound | eapply partition_lookup_found; exact Hfound].
  - assert (Hfound : partition_lookup STATIC_CACHE_NAME (String.append site path)
                       (put_all STATIC_CACHE_NAME entries
                          (caches w ++ [(STATIC_CACHE_NAME, [])])) = Some r)
      by (apply put_all_lookup;
          [assumption | assumption | apply has_partition_created]).
    split; [exact Hfound | eapply partition_lookup_found; exact Hfound].
Qed.

Lemma install_precaches_app_shell_witness :
  exists w' : World,
    install serving_platform origin empty_world = (Returned tt, w')
    /\ partition_lookup STATIC_CACHE_NAME styles_url (caches w')
       = Some (page_200 styles_url).
Proof.
  destruct (install_precaches_app_shell serving_platform origin empty_world)
    as (w' & Hrun & _ & Hstored).
  - intros i path _. eexists. split; reflexivity.
  - exists w'. split; [exact Hrun|].
    apply (Hstored 3%nat "/assets/css/styles.css" (page_200 styles_url));
      reflexivity.
Defined.

(** X13: when one of the app-shell requests is rejected, or resolves to a
    response [addAll] refuses, nothing is stored: the static partition exists
    (it is created empty when missing) and every partition has the contents
    of before; the error is logged, the last message of a successful
    installation is not, and installation returns normally all the same. *)
Theorem install_swallows_precache_failure :
  forall (P : Platform) (site : string) (w : World) (i : nat) (path : string),
    nth_error STATIC_FILES i = Some path ->
    match network P (List.length (fetch_log w) + i) (precache_request site path) with
    | Resolved r => addable r = false
    | Rejected _ => True
    end ->
    exists (w' : World) (e : Error),
      install P site w = (Returned tt, w')
      /\ console w'
         = console w ++ [Info "Service Worker installing...";
                         Info "Caching static files...";
                         Failure "Error caching static files:" e]
      /\ caches w'
         = (if has_partition STATIC_CACHE_NAME (caches w) then caches w
            else caches w ++ [(STATIC_CACHE_NAME, [])]).
Proof.
  intros P site w i path Hnth Hbad.
  destruct (fetch_all_fails P site STATIC_FILES (List.length (fetch_log w))
              i path Hnth Hbad) as [e He].
  unfold install, cache_addAll; run. fields.
  destruct (has_partition STATIC_CACHE_NAME (caches w)) eqn:Hhas; fields;
    rewrite He; fields; eexists; exists e; (split; [reflexivity|]); fields;
    rewrite <- !app_assoc; split; reflexivity.
Qed.

Lemma install_swallows_precache_failure_witness :
  exists (w' : World) (e : Error),
    install offline_platform origin empty_world = (Returned tt, w')
    /\ caches w' = [(STATIC_CACHE_NAME, [])].
Proof.
  destruct (install_swallows_precache_failure offline_platform origin
              empty_world 0%nat "/" eq_refl I)
    as (w' & e & Hrun & _ & Hcaches).
  exists w', e. split; [exact Hrun | exact Hcaches].
Defined.

(** ** The sync listener and repeated drains *)

Lemma replay_loop_offline (P : Platform) (forms : list Form) :
  (forall k r, exists e, network P k r = Rejected e) ->
  forall w : World,
  exists w' : World,
    for_of forms (replay P tt) w = (Returned tt, w')
    /\ offlineForms w' = offlineForms w.
Proof.
  intros Hdown. induction forms as [|f forms IH]; intros w.
  - exists w. split; reflexivity.
  - cbn [for_of]. unfold bind.
    destruct (replay_step P f w) as (w1 & Hrun & _ & _ & Hstore & _).
    rewrite Hrun. destruct (IH w1) as (w' & Hrun' & Hst').
    exists w'. split; [exact Hrun'|]. rewrite Hst', Hstore.
    unfold replay_ok.
    destruct (Hdown (List.length (fetch_log w)) (consultation_post f)) as [e He].
    rewrite He. reflexivity.
Qed.

(** X14: the promise the sync listener hands to [waitUntil] never rejects,
    whatever the tag, the network and the store do; with the network down the
    queue is left as it was, and an event of another tag changes nothing. *)
Theorem sync_always_resolves :
  forall (P : Platform) (tag : string) (w : World),
  exists w' : World,
    onsync P tag w = (Returned tt, w')
    /\ ((forall k r, exists e, network P k r = Rejected e) ->
        offlineForms w' = offlineForms w)
    /\ (tag <> "consultation-form" -> w' = w).
Proof.
  intros P tag w. unfold onsync.
  destruct (String.eqb_spec tag "consultation-form") as [Htag|Htag].
  - unfold handleOfflineFormSubmission, openDB, getOfflineForms; run.
    destruct (idb_fault P (idb_ops w) OpOpen); fields;
      [eexists; repeat split; tauto|].
    destruct (idb_fault P (S (idb_ops w)) OpGetAll); fields;
      [eexists; repeat split; tauto|].
    match goal with |- context [for_of ?forms (replay P tt) ?w1] =>
      destruct (replay_loop_total P forms w1) as (w' & Hrun & _);
      pose proof (fun H => replay_loop_offline P forms H w1) as Hoff
    end.
    rewrite Hrun. exists w'. split; [reflexivity|]. split; [|tauto].
    intros Hdown. destruct (Hoff Hdown) as (w'' & Hrun' & Hst).
    rewrite Hrun in Hrun'. inversion Hrun'; subst w''. exact Hst.
  - exists w. repeat split.
Qed.

Example sync_offline_keeps_the_queue :
  offlineForms (snd (onsync offline_platform "consultation-form"
                       (queue_world [form_A; form_B; form_C])))
  = [form_A; form_B; form_C].
Proof. vm_compute. reflexivity. Qed.

Lemma drain_no_fault_run (P : Platform) (w : World) :
  (forall k op, idb_fault P k op = None) ->
  NoDup (map id (offlineForms w)) ->
  exists w' : World,
    handleOfflineFormSubmission P w = (Returned tt, w')
    /\ fetch_log w' = fetch_log w ++ map consultation_post (offlineForms w)
    /\ offlineForms w'
       = undelivered P (List.length (fetch_log w)) (offlineForms w).
Proof.
  intros Hnofault Hnodup.
  destruct (drain_replays_snapshot P w (Hnofault _ _) (Hnofault _ _))
    as (w' & Hdrain & Hloop).
  destruct (replay_loop_no_fault P (offlineForms w) Hnofault
              (set_idb_ops w (S (S (idb_ops w)))))
    as (w'' & Hrun & Hlog & Hst).
  rewrite Hloop in Hrun. inversion Hrun; subst w''.
  exists w'. split; [exact Hdrain|]. split; [exact Hlog|].
  rewrite Hst. apply filter_delivered. exact Hnodup.
Qed.

(** X15: two drains in a row, the store never failing during the first and
    opening and reading for the second: the second drain posts exactly the
    submissions the first one left, in order; a submission the first drain
    delivered is not posted again. *)
Theorem second_drain_replays_only_what_is_left :
  forall (P P2 : Platform) (w : World),
    (forall k op, idb_fault P k op = None) ->
    NoDup (map id (offlineForms w)) ->
    (forall k, idb_fault P2 k OpOpen = None) ->
    (forall k, idb_fault P2 k OpGetAll = None) ->
    exists w1 w2 : World,
      handleOfflineFormSubmission P w = (Returned tt, w1)
      /\ handleOfflineFormSubmission P2 w1 = (Returned tt, w2)
      /\ fetch_log w2
         = fetch_log w ++ map consultation_post (offlineForms w)
           ++ map consultation_post
                (undelivered P (List.length (fetch_log w)) (offlineForms w)).
Proof.
  intros P P2 w Hnofault Hnodup Hopen2 Hread2.
  destruct (drain_no_fault_run P w Hnofault Hnodup) as (w1 & Hrun1 & Hlog1 & Hst1).
  destruct (drain_replays_snapshot P2 w1 (Hopen2 _) (Hread2 _))
    as (w2 & Hrun2 & Hloop2).
  destruct (replay_loop_total P2 (offlineForms w1)
              (set_idb_ops w1 (S (S (idb_ops w1)))))
    as (w2' & Hrun & Hlog2 & _).
  rewrite Hloop2 in Hrun. inversion Hrun; subst w2'.
  exists w1, w2. split; [exact Hrun1|]. split; [exact Hrun2|].
  rewrite Hlog2. fields. rewrite Hlog1, Hst1, <- app_assoc. reflexivity.
Qed.

Lemma second_drain_replays_only_what_is_left_witness :
  exists w1 w2 : World,
    handleOfflineFormSubmission (example_platform only_B_fails no_fault)
      (queue_world [form_A; form_B; form_C]) = (Returned tt, w1)
    /\ handleOfflineFormSubmission (example_platform accepting_network no_fault)
         w1 = (Returned tt, w2)
    /\ fetch_log w2
       = [consultation_post form_A; consultation_post form_B;
          consultation_post form_C; consultation_post form_B].
Proof.
  destruct (second_drain_replays_only_what_is_left
              (example_platform only_B_fails no_fault)
              (example_platform accepting_network no_fault)
              (queue_world [form_A; form_B; form_C]))
    as (w1 & w2 & Hrun1 & Hrun2 & Hlog).
  - intros k op. reflexivity.
  - repeat (constructor; [cbn; intuition lia|]). constructor.
  - intros k. reflexivity.
  - intros k. reflexivity.
  - exists w1, w2. split; [exact Hrun1|]. split; [exact Hrun2 | exact Hlog].
Defined.

(** A form stays in the store through the loop when every form of the
    snapshot that has its key had a replay without a 2xx response. *)
Lemma replay_loop_keeps (P : Platform) (forms : list Form) :
  forall (w : World) (f : Form),
    In f (offlineForms w) ->
    (forall j g, nth_error forms j = Some g -> id g = id f ->
       replay_ok P (List.length (fetch_log w) + j) g = false) ->
    In f (offlineForms (snd (for_of forms (replay P tt) w))).
Proof.
  induction forms as [|g forms IH]; intros w f Hin Hfailed.
  - exact Hin.
  - cbn [for_of]. unfold bind.
    destruct (replay_step P g w) as (w1 & Hrun & Hlog & _ & Hstore & _).
    rewrite Hrun. apply IH.
    + rewrite Hstore.
      destruct (replay_ok P (List.length (fetch_log w)) g) eqn:Hok;
        [|exact Hin].
      destruct (idb_fault P (idb_ops w) (OpDelete (id g))); [exact Hin|].
      apply filter_In. split; [exact Hin|].
      apply negb_true_iff, Z.eqb_neq. intros Heq.
      specialize (Hfailed 0%nat g eq_refl (eq_sym Heq)).
      rewrite Nat.add_0_r in Hfailed. congruence.
    + intros j h Hnth Hid. rewrite Hlog, length_app. cbn [List.length].
      replace (List.length (fetch_log w) + 1 + j)%nat
        with (List.length (fetch_log w) + S j)%nat by lia.
      apply Hfailed; assumption.
Qed.

Lemma nth_error_same_key (forms : list Form) :
  NoDup (map id forms) ->
  forall i j f g,
    nth_error forms i = Some f -> nth_error forms j = Some g ->
    id g = id f -> i = j /\ g = f.
Proof.
  intros Hnodup i j f g Hi Hj Hid.
  assert (Hij : i = j).
  { apply (proj1 (NoDup_nth_error (map id forms)) Hnodup).
    - rewrite length_map. apply nth_error_Some. rewrite Hi. discriminate.
    - rewrite !nth_error_map, Hi, Hj. cbn. rewrite Hid. reflexivity. }
  subst j. split; [reflexivity | congruence].
Qed.

(** X16: no submission is lost: whatever the network and the store do, a
    pending submission whose replay did not get a 2xx response is still in
    the store after the drain. *)
Theorem drain_never_drops_an_undelivered_form :
  forall (P : Platform) (w : World) (i : nat) (f : Form),
    NoDup (map id (offlineForms w)) ->
    nth_error (offlineForms w) i = Some f ->
    replay_ok P (List.length (fetch_log w) + i) f = false ->
    In f (offlineForms (snd (handleOfflineFormSubmission P w))).
Proof.
  intros P w i f Hnodup Hnth Hfailed.
  assert (Hin : In f (offlineForms w)) by (eapply nth_error_In; exact Hnth).
  unfold handleOfflineFormSubmission, openDB, getOfflineForms; run.
  destruct (idb_fault P (idb_ops w) OpOpen); fields; [exact Hin|].
  destruct (idb_fault P (S (idb_ops w)) OpGetAll); fields; [exact Hin|].
  match goal with |- context [for_of ?forms (replay P tt) ?w1] =>
    pose proof (replay_loop_keeps P forms w1 f) as Hkeep;
    destruct (replay_loop_total P forms w1) as (w' & Hrun & _)
  end.
  rewrite Hrun in Hkeep |- *. fields. apply Hkeep.
  - exact Hin.
  - fields. intros j g Hj Hid.
    destruct (nth_error_same_key _ Hnodup i j f g Hnth Hj Hid) as [<- ->].
    exact Hfailed.
Qed.

Lemma drain_never_drops_an_undelivered_form_witness :
  In form_B
     (offlineForms
        (snd (handleOfflineFormSubmission (example_platform only_B_fails cannot_delete_2)
                (queue_world [form_A; form_B; form_C])))).
Proof.
  apply (drain_never_drops_an_undelivered_form
           (example_platform only_B_fails cannot_delete_2)
           (queue_world [form_A; form_B; form_C]) 1%nat form_B).
  - repeat (constructor; [cbn; intuition lia|]). constructor.
  - reflexivity.
  - reflexivity.
Defined.

(** ** Entries without a date *)

(** X17: an entry stored without a [date] header takes the clock as its
    capture time each time it is checked, so it never expires: as long as two
    successive readings of the clock are no more than an hour apart,
    [cacheFirstStrategy] answers with the entry and starts no request. *)
Theorem cacheFirst_never_revalidates_undated_entry :
  forall (P : Platform) (request : Request) (w : World) (c : Response)
         (cls : ExpiryClass),
    storage_lookup (url request) (caches w) = Some c ->
    date_header c = DateAbsent ->
    expiry_class P c = Returned cls ->
    clock P (S (clock_reads w)) - clock P (clock_reads w) <= 60 * 60 * 1000 ->
    exists w' : World,
      cacheFirstStrategy P request w = (Returned (Some c), w')
      /\ fetch_log w' = fetch_log w.
Proof.
  intros P request w c cls Hhit Hdate Hcls Hstep.
  pose proof (isCacheExpired_without_date P w c cls Hdate Hcls) as Hexp.
  assert (Hfresh : fst (isCacheExpired P c w) = Returned false).
  { rewrite Hexp. f_equal. rewrite Z.gtb_ltb. apply Z.ltb_ge.
    destruct cls; cbn; lia. }
  unfold cacheFirstStrategy, present_and_fresh; run. rewrite Hhit.
  destruct (isCacheExpired_run P c w) as (o & n & Hrun).
  rewrite Hrun in Hfresh |- *. cbn in Hfresh. subst o. cbn [negb]. fields.
  eexists. split; reflexivity.
Qed.

Lemma cacheFirst_never_revalidates_undated_entry_witness :
  exists w' : World,
    cacheFirstStrategy serving_platform (GET styles_url no_cors)
      (world_with [(STATIC_CACHE_NAME, [(styles_url, undated_styles)])])
    = (Returned (Some undated_styles), w')
    /\ fetch_log w' = [].
Proof.
  apply (cacheFirst_never_revalidates_undated_entry serving_platform
           (GET styles_url no_cors)
           (world_with [(STATIC_CACHE_NAME, [(styles_url, undated_styles)])])
           undated_styles static_class eq_refl eq_refl eq_refl).
  vm_compute. discriminate.
Defined.

(** X18: an entry whose [date] header does not parse has no age ([NaN]),
    and no comparison with a maximum age holds: whatever the clock reads,
    [cacheFirstStrategy] answers with the entry and starts no request. *)
Theorem cacheFirst_never_revalidates_entry_with_invalid_date :
  forall (P : Platform) (request : Request) (w : World) (c : Response)
         (cls : ExpiryClass),
    storage_lookup (url request) (caches w) = Some c ->
    date_header c = DateInvalid ->
    expiry_class P c = Returned cls ->
    exists w' : World,
      cacheFirstStrategy P request w = (Returned (Some c), w')
      /\ fetch_log w' = fetch_log w.
Proof.
  intros P request w c cls Hhit Hdate Hcls.
  pose proof (isCacheExpired_invalid_date P w c cls Hdate Hcls) as Hfresh.
  unfold cacheFirstStrategy, present_and_fresh; run. rewrite Hhit.
  destruct (isCacheExpired_run P c w) as (o & n & Hrun).
  rewrite Hrun in Hfresh |- *. cbn in Hfresh. subst o. cbn [negb]. fields.
  eexists. split; reflexivity.
Qed.

Lemma cacheFirst_never_revalidates_entry_with_invalid_date_witness :
  exists w' : World,
    cacheFirstStrategy serving_platform (GET styles_url no_cors)
      (world_with [(STATIC_CACHE_NAME, [(styles_url, garbled_styles)])])
    = (Returned (Some garbled_styles), w')
    /\ fetch_log w' = [].
Proof.
  apply (cacheFirst_never_revalidates_entry_with_invalid_date serving_platform
           (GET styles_url no_cors)
           (world_with [(STATIC_CACHE_NAME, [(styles_url, garbled_styles)])])
           garbled_styles static_class eq_refl eq_refl eq_refl).
Defined.

(** X19: [staleWhileRevalidateStrategy] starts exactly one network request
    on every call, whether the dynamic partition has a fresh entry, an
    expired one or none, and also when the expiry check throws. *)
Theorem staleWhileRevalidate_always_fetches_once :
  forall (P : Platform) (request : Request) (w : World),
    fetch_log (snd (staleWhileRevalidateStrategy P request w))
    = fetch_log w ++ [request].
Proof.
  intros P request w.
  unfold staleWhileRevalidateStrategy; run.
  assert (Hfresh : forall o w1,
             exists b n, present_and_fresh P o w1 = (b, set_clock_reads w1 n)).
  { intros o w1. unfold present_and_fresh. destruct o as [c|]; run.
    - destruct (isCacheExpired_run P c w1) as (b & n & Hrun). rewrite Hrun.
      destruct b; eexists; eexists; reflexivity.
    - exists (Returned false), (clock_reads w1). destruct w1; reflexivity. }
  assert (Hsettle : forall w1,
             fetch_log (snd (settle P (FetchThenCatch (List.length (fetch_log w))
                                         DYNAMIC_CACHE_NAME request) w1))
             = fetch_log w1).
  { intros w1. unfold settle; run. fields.
    destruct (network P (List.length (fetch_log w)) request) as [r|e]; fields;
      [destruct (status r =? 200)|]; reflexivity. }
  destruct (has_partition DYNAMIC_CACHE_NAME (caches w)); fields;
    match goal with |- context [present_and_fresh P ?o ?w1] =>
      destruct (Hfresh o w1) as (b & n & Hrun); rewrite Hrun
    end;
    destruct b as [[|]|e]; fields; try reflexivity;
    cbn [js_or truthy async_return]; rewrite Hsettle; reflexivity.
Qed.
